(** * HyperlaneRegistration: the per-account claim workflow and its orchestrator

    A shallow embedding of [HyperlaneRegistration/main.py].  The Python code
    is asynchronous and effectful: it talks to a remote service through
    aiohttp, signs with eth_account, logs through loguru and is scheduled by
    asyncio under a semaphore.  Programs are embedded as finite trees of
    effects ([prog]); the trees are run sequentially against an arbitrary
    remote service ([run]) and interleaved by a scheduler ([step]). *)

From Stdlib Require Import String Ascii List ZArith Lia Bool.
From Stdlib Require Import Strings.Byte.
Import ListNotations.
Open Scope string_scope.
Open Scope list_scope.
Open Scope Z_scope.

Set Implicit Arguments.
Set Warnings "-register-all".

(** ** Python values *)

(** What [await response.json()] can yield and what the [json=] argument of a
    request carries.  Objects keep the order of their keys.  Numbers are the
    integers: the code writes the number 10 and only tests what it reads
    for truth, for equality with a string, or by subscripting. *)
Inductive json : Type :=
| JNull
| JBool (b : bool)
| JNum (n : Z)
| JStr (s : string)
| JArr (items : list json)
| JObj (fields : list (string * json)).

(** Instances of Python's [Exception]: the class name and [str(e)]. *)
Record exn : Type := Exn { exn_class : string; exn_str : string }.

Inductive result (A : Type) : Type :=
| Ok (a : A)
| Raised (e : exn).
Arguments Ok {A} a.
Arguments Raised {A} e.

Definition KeyError (k : string) : exn :=
  Exn "KeyError" ("'" ++ k ++ "'")%string.
Definition IndexError (what : string) : exn :=
  Exn "IndexError" (what ++ " index out of range")%string.
Definition TypeError (msg : string) : exn := Exn "TypeError" msg.

Fixpoint assoc (k : string) (fields : list (string * json)) : option json :=
  match fields with
  | [] => None
  | (k', v) :: rest => if String.eqb k k' then Some v else assoc k rest
  end.

(** [v[k]] for a string key [k]. *)
Definition getitem (v : json) (k : string) : result json :=
  match v with
  | JObj fields =>
      match assoc k fields with
      | Some x => Ok x
      | None => Raised (KeyError k)
      end
  | JArr _ => Raised (TypeError "list indices must be integers or slices, not str")
  | JStr _ => Raised (TypeError "string indices must be integers, not 'str'")
  | _ => Raised (TypeError "object is not subscriptable")
  end.

(** [v[0]]. *)
Definition getitem0 (v : json) : result json :=
  match v with
  | JArr (x :: _) => Ok x
  | JArr [] => Raised (IndexError "list")
  | JStr (String c _) => Ok (JStr (String c EmptyString))
  | JStr EmptyString => Raised (IndexError "string")
  | JObj _ => Raised (Exn "KeyError" "0")
  | _ => Raised (TypeError "object is not subscriptable")
  end.

(** Truth value of [v] in an [if]. *)
Definition truthy (v : json) : bool :=
  match v with
  | JNull => false
  | JBool b => b
  | JNum n => negb (n =? 0)
  | JStr s => negb (String.eqb s EmptyString)
  | JArr items => match items with [] => false | _ => true end
  | JObj fields => match fields with [] => false | _ => true end
  end.

(** [v == s] for a string literal [s]. *)
Definition eq_str (v : json) (s : string) : bool :=
  match v with
  | JStr s' => String.eqb s' s
  | _ => false
  end.

(** ** bytes.hex() *)

(** [signature.hex()]: two lower-case digits a byte and no prefix, which is
    what the [0x] that [check_eligible] puts in front of it expects. *)

Definition hex_digit (n : N) : ascii :=
  match n with
  | 0%N => "0" | 1%N => "1" | 2%N => "2" | 3%N => "3"
  | 4%N => "4" | 5%N => "5" | 6%N => "6" | 7%N => "7"
  | 8%N => "8" | 9%N => "9" | 10%N => "a" | 11%N => "b"
  | 12%N => "c" | 13%N => "d" | 14%N => "e" | _ => "f"
  end%char.

Fixpoint hex (bs : list byte) : string :=
  match bs with
  | [] => EmptyString
  | b :: rest =>
      let n := Byte.to_N b in
      String (hex_digit (N.div n 16)) (String (hex_digit (N.modulo n 16)) (hex rest))
  end.

(** ** Effects *)

Inductive level : Type := INFO | SUCCESS | ERROR.

(** The replacement fields of an f-string. *)
Inductive piece : Type :=
| Lit (s : string)
| FInt (n : Z)
| FVal (v : json).

Inductive method : Type := GET | POST.

(** [aiohttp.ClientSession(headers=...)]. *)
Record ClientSession : Type := { headers : list (string * string) }.

(** One call of [client.get] or [client.post]. *)
Record request : Type := {
  req_method : method;
  req_session : ClientSession;
  req_url : string;
  req_params : list (string * string);
  req_json : option json;
  req_proxy : option string
}.

(** [aiohttp.ClientResponse], reduced to what [await response.json()] does
    with it: the decoded body, or the exception raised while reading it. *)
Record ClientResponse : Type := { response_json_ : result json }.

Inductive event : Type :=
| EHttp (r : request)
| ESign (full_message : json) (private_key : string)
| ELog (lvl : level) (msg : list piece)
| ESleep (seconds : Z)
| EAcquire
| ERelease.

Definition resp (e : event) : Type :=
  match e with
  | EHttp _ => result ClientResponse
  | ESign _ _ => result (list byte)
  | _ => unit
  end.

(** A coroutine: it returns, raises, or performs an effect and goes on with
    the answer. *)
Inductive prog (A : Type) : Type :=
| Ret (a : A)
| Raise (e : exn)
| Vis (e : event) (k : resp e -> prog A).
Arguments Ret {A} a.
Arguments Raise {A} e.
Arguments Vis {A} e k.

Fixpoint bind {A B : Type} (p : prog A) (f : A -> prog B) : prog B :=
  match p with
  | Ret a => f a
  | Raise e => Raise e
  | Vis e k => Vis e (fun x => bind (k x) f)
  end.

(** [try: p  except Exception as e: h e] *)
Fixpoint try_except {A : Type} (p : prog A) (h : exn -> prog A) : prog A :=
  match p with
  | Ret a => Ret a
  | Raise e => h e
  | Vis e k => Vis e (fun x => try_except (k x) h)
  end.

(** The exit of a [with] block: [fin] runs whether [p] returns or raises. *)
Fixpoint try_finally {A : Type} (p : prog A) (fin : prog unit) : prog A :=
  match p with
  | Ret a => bind fin (fun _ => Ret a)
  | Raise e => bind fin (fun _ => Raise e)
  | Vis e k => Vis e (fun x => try_finally (k x) fin)
  end.

Definition lift {A : Type} (r : result A) : prog A :=
  match r with
  | Ok a => Ret a
  | Raised e => Raise e
  end.

Definition trigger (e : event) : prog (resp e) := Vis e (fun x => Ret x).

Notation "x <- p ;; q" := (bind p (fun x => q))
  (at level 61, p at next level, right associativity).
Notation "p ;; q" := (bind p (fun _ => q))
  (at level 61, right associativity).

(** ** The worker: [HyperLaneRegistration] *)

Definition get_request (client : ClientSession) (url : string)
    (params : list (string * string)) (proxy : option string) : request :=
  {| req_method := GET; req_session := client; req_url := url;
     req_params := params; req_json := None; req_proxy := proxy |}.

Definition post_request (client : ClientSession) (url : string)
    (body : json) (proxy : option string) : request :=
  {| req_method := POST; req_session := client; req_url := url;
     req_params := []; req_json := Some body; req_proxy := proxy |}.

(** [await client.get(url, params=..., proxy=...)] *)
Definition client_get (client : ClientSession) (url : string)
    (params : list (string * string)) (proxy : option string) : prog ClientResponse :=
  r <- trigger (EHttp (get_request client url params proxy)) ;;
  lift r.

(** [await client.post(url, json=..., proxy=...)] *)
Definition client_post (client : ClientSession) (url : string)
    (body : json) (proxy : option string) : prog ClientResponse :=
  r <- trigger (EHttp (post_request client url body proxy)) ;;
  lift r.

(** [await response.json()] *)
Definition response_json (response : ClientResponse) : prog json :=
  lift (response_json_ response).

Definition logger_info (msg : list piece) : prog unit := trigger (ELog INFO msg).
Definition logger_success (msg : list piece) : prog unit := trigger (ELog SUCCESS msg).
Definition logger_error (msg : list piece) : prog unit := trigger (ELog ERROR msg).
Definition asyncio_sleep (seconds : Z) : prog unit := trigger (ESleep seconds).

(** What the decorated function hands back: the value of [func], the [0]
    of the last failed attempt, or the [None] of a loop that never ran. *)
Inductive wrapped (A : Type) : Type :=
| Returned (a : A)
| Zero
| FellThrough.
Arguments Returned {A} a.
Arguments Zero {A}.
Arguments FellThrough {A}.

Definition range0 (n : Z) : list Z := map Z.of_nat (seq 0 (Z.to_nat n)).

(** The [for i in range(0, retries)] loop of [wrapper], over the indices
    still to come. *)
Fixpoint wrapper_loop {A : Type} (error_msg : string) (retries : Z)
    (func : prog A) (indices : list Z) : prog (wrapped A) :=
  match indices with
  | [] => Ret FellThrough
  | i :: rest =>
      try_except
        (a <- func ;; Ret (Returned a))
        (fun e =>
           logger_error [Lit error_msg; Lit ": "; Lit (exn_str e)] ;;
           if i =? retries - 1 then Ret Zero
           else asyncio_sleep 2 ;; wrapper_loop error_msg retries func rest)
  end.

Definition async_error_handler {A : Type} (error_msg : string) (retries : Z)
    (func : prog A) : prog (wrapped A) :=
  wrapper_loop error_msg retries func (range0 retries).

(** [eth_account]'s [LocalAccount], reduced to the address the code reads. *)
Record LocalAccount : Type := { address : string }.

(** The [client] attribute is only a handle on the session opened by
    [check_eligible]; the session is passed along instead. *)
Record HyperLaneRegistration : Type := {
  private_key : string;
  account : LocalAccount;
  proxy : option string;
  id : Z
}.

(** A double quote inside a header value. *)
Definition dq (s : string) : string :=
  String (ascii_of_nat 34) (s ++ String (ascii_of_nat 34) EmptyString).

Definition browser_headers : list (string * string) :=
  [ ("authority", "claim.hyperlane.foundation");
    ("accept", "*/*");
    ("accept-language", "en-US,en;q=0.9,ru;q=0.8");
    ("referer", "https://claim.hyperlane.foundation/");
    ("sec-ch-ua", dq "Not/A)Brand" ++ ";v=" ++ dq "8" ++ ", " ++ dq "Chromium"
                  ++ ";v=" ++ dq "126" ++ ", " ++ dq "Google Chrome" ++ ";v="
                  ++ dq "126");
    ("sec-ch-ua-mobile", "?0");
    ("sec-ch-ua-platform", dq "Windows");
    ("sec-fetch-dest", "empty");
    ("sec-fetch-mode", "cors");
    ("sec-fetch-site", "same-origin");
    ("user-agent", "Mozilla/5.0 (Windows NT 10.0; Win64; x64) AppleWebKit/537.36 (KHTML, like Gecko) Chrome/126.0.0.0 Safari/537.36") ]%string.

Definition field (name type : string) : json :=
  JObj [("name", JStr name); ("type", JStr type)].

Definition typed_message (self : HyperLaneRegistration) (amount : json) : json :=
  JObj [
    ("domain", JObj [("name", JStr "Hyperlane"); ("version", JStr "1")]);
    ("message", JObj [
       ("eligibleAddress", JStr (address (account self)));
       ("chainId", JStr "10");
       ("amount", amount);
       ("receivingAddress", JStr (address (account self)));
       ("tokenType", JStr "HYPER")]);
    ("primaryType", JStr "Message");
    ("types", JObj [
       ("EIP712Domain", JArr [field "name" "string"; field "version" "string"]);
       ("Message", JArr [
          field "eligibleAddress" "string";
          field "chainId" "uint256";
          field "amount" "string";
          field "receivingAddress" "string";
          field "tokenType" "string"])])].

Definition create_message (self : HyperLaneRegistration) (amount : json) : prog string :=
  let message := typed_message self amount in
  signed <- trigger (ESign message (private_key self)) ;;
  signature_bytes <- lift signed ;;
  Ret (hex signature_bytes).

Definition wallets_body (self : HyperLaneRegistration) (signature : string)
    (amount : json) : json :=
  JObj [("wallets", JArr [
    JObj [("eligibleAddress", JStr (address (account self)));
          ("chainId", JNum 10);
          ("eligibleAddressType", JStr "ethereum");
          ("receivingAddress", JStr (address (account self)));
          ("signature", JStr ("0x" ++ signature)%string);
          ("tokenType", JStr "HYPER");
          ("amount", amount)]])].

Definition who (self : HyperLaneRegistration) : list piece :=
  [Lit "#"; FInt (id self); Lit " | "; Lit (address (account self))].

Definition url_check_eligibility : string :=
  "https://claim.hyperlane.foundation/api/check-eligibility".
Definition url_get_registration : string :=
  "https://claim.hyperlane.foundation/api/get-registration-for-address".
Definition url_save_registration : string :=
  "https://claim.hyperlane.foundation/api/save-registration".

Definition session : ClientSession := {| headers := browser_headers |}.

(** The body of [check_eligible], before the decorator is applied. *)
Definition check_eligible_func (self : HyperLaneRegistration) : prog unit :=
  let client := session in
  response <- client_get client url_check_eligibility
    [("address", address (account self))] (proxy self) ;;
  response_json1 <- response_json response ;;
  r <- lift (getitem response_json1 "response") ;;
  is_eligible <- lift (getitem r "isEligible") ;;
  if truthy is_eligible then
    r <- lift (getitem response_json1 "response") ;;
    eligibilities <- lift (getitem r "eligibilities") ;;
    first <- lift (getitem0 eligibilities) ;;
    amount <- lift (getitem first "amount") ;;
    response <- client_get client url_get_registration
      [("address", address (account self))] (proxy self) ;;
    response_json2 <- response_json response ;;
    message <- lift (getitem response_json2 "message") ;;
    if eq_str message "Success" then
      logger_info (who self ++ [Lit " eligible | "; FVal amount;
                                Lit " HYPER | already registered"])
    else
      logger_info (who self ++ [Lit " eligible | "; FVal amount;
                                Lit " HYPER | not registered"]) ;;
      signature <- create_message self amount ;;
      response <- client_post client url_save_registration
        (wallets_body self signature amount) (proxy self) ;;
      response_json3 <- response_json response ;;
      validation <- lift (getitem response_json3 "validationResult") ;;
      success <- lift (getitem validation "success") ;;
      if truthy success then
        logger_success (who self ++ [Lit " success registered"])
      else
        logger_info (who self ++ [Lit " not registered"])
  else
    logger_info (who self ++ [Lit " not eligible"]).

(** [@async_error_handler('check_eligible')], with the default [retries=3]. *)
Definition check_eligible (self : HyperLaneRegistration) : prog (wrapped unit) :=
  async_error_handler "check_eligible" 3 (check_eligible_func self).

(** ** The orchestrator *)

(** [async with semaphore: body] *)
Definition with_semaphore {A : Type} (body : prog A) : prog A :=
  trigger EAcquire ;; try_finally body (trigger ERelease).

Section Orchestrator.

(** [Account().from_key(private_key=...)]: the address of the key, or the
    exception eth_account raises on a malformed key. *)
Variable from_key : string -> result LocalAccount.

Definition __init__ (private_key : string) (proxy : option string)
    (number_acc : Z) : result HyperLaneRegistration :=
  match from_key private_key with
  | Raised e => Raised e
  | Ok account =>
      Ok {| private_key := private_key;
            account := account;
            proxy := match proxy with
                     | Some p => Some ("http://" ++ p)%string
                     | None => None
                     end;
            id := number_acc |}
  end.

Definition start_work (account : string * option string) (id_acc : Z) : prog unit :=
  with_semaphore
    (acc <- lift (__init__ (fst account) (snd account) id_acc) ;;
     try_except
       (check_eligible acc ;; Ret tt)
       (fun e => logger_error [Lit "ID account:"; FInt id_acc;
                               Lit " Failed: "; Lit (exn_str e)])).

Fixpoint enumerate {A : Type} (start : Z) (l : list A) : list (Z * A) :=
  match l with
  | [] => []
  | x :: rest => (start, x) :: enumerate (start + 1) rest
  end.

Definition tasks (accounts : list (string * option string)) : list (prog unit) :=
  map (fun ia => start_work (snd ia) (fst ia)) (enumerate 1 accounts).

(** [asyncio.gather] over the tasks, created in the order of the accounts,
    under [asyncio.Semaphore(1)]: the semaphore wakes its waiters first in,
    first out, so the tasks run one after the other.  The first exception
    that leaves a task leaves [gather], and with it [main]; [asyncio.run]
    then cancels the tasks that are still pending before it raises the
    exception again.  A cancelled task gets no answer any more: what it
    had begun is left out of the run. *)
Fixpoint gather (coros : list (prog unit)) : prog unit :=
  match coros with
  | [] => Ret tt
  | coro :: rest => coro ;; gather rest
  end.

Definition main (accounts : list (string * option string)) : prog unit :=
  gather (tasks accounts).

Definition newline : string := String (ascii_of_nat 10) EmptyString.

(** The [if __name__ == '__main__'] block, from the accounts the
    spreadsheet holds. *)
Definition script (accounts : list (string * option string)) : prog unit :=
  logger_info [Lit "My channel: https://t.me/CryptoMindYep"] ;;
  logger_info [Lit "Total wallets: "; FInt (Z.of_nat (length accounts)); Lit newline] ;;
  main accounts ;;
  logger_success [Lit "The work completed"] ;;
  logger_info [Lit "Thx for donat: 0x5AfFeb5fcD283816ab4e926F380F9D0CBBA04d0e"].

End Orchestrator.

(** [asyncio.Semaphore(1)] in [main]. *)
Definition semaphore_value : nat := 1.

(** ** Running one coroutine at a time *)

Section Run.

(** The remote service, behind the transport: a state and what it answers
    to each request, which may be an exception of the transport. *)
Variable W : Type.
Variable http : W -> request -> W * result ClientResponse.

(** [encode_typed_data(full_message=...)] and [Account.sign_message(...)
    .signature] of eth_account; each may raise. *)
Variable SignableMessage : Type.
Variable encode_typed_data : json -> result SignableMessage.
Variable sign_message : SignableMessage -> string -> result (list byte).

Definition sign (full_message : json) (key : string) : result (list byte) :=
  match encode_typed_data full_message with
  | Raised e => Raised e
  | Ok signable => sign_message signable key
  end.

(** The service and the value of the semaphore. *)
Record state : Type := { world : W; sem : nat }.

(** The answer to one effect; [None] when the semaphore is taken and
    nobody is left to release it. *)
Definition handle (st : state) (e : event) : option (state * resp e) :=
  match e as e0 return option (state * resp e0) with
  | EHttp r =>
      let (w', x) := http (world st) r in
      Some ({| world := w'; sem := sem st |}, x)
  | ESign m k => Some (st, sign m k)
  | ELog _ _ => Some (st, tt)
  | ESleep _ => Some (st, tt)
  | EAcquire =>
      match sem st with
      | O => None
      | S n => Some ({| world := world st; sem := n |}, tt)
      end
  | ERelease => Some ({| world := world st; sem := S (sem st) |}, tt)
  end.

(** The effects performed, the state left and how the coroutine ended. *)
Definition outcome (A : Type) : Type := list event * state * result A.

Definition after {A : Type} (e : event) (o : option (outcome A)) : option (outcome A) :=
  match o with
  | Some (t, st, r) => Some (e :: t, st, r)
  | None => None
  end.

Fixpoint run {A : Type} (p : prog A) (st : state) : option (outcome A) :=
  match p with
  | Ret a => Some ([], st, Ok a)
  | Raise e => Some ([], st, Raised e)
  | Vis e k =>
      match handle st e with
      | Some (st', x) => after e (run (k x) st')
      | None => None
      end
  end.

(** The run [o], after the effects [t]. *)
Definition prefixed {A : Type} (t : list event) (o : option (outcome A))
    : option (outcome A) :=
  match o with
  | Some (t', st, r) => Some (t ++ t', st, r)
  | None => None
  end.

End Run.


(** ** What a run did *)

(** The three requests of [check_eligible], as the account [self] sends
    them, and the lines it logs. *)
Definition eligibility_query (self : HyperLaneRegistration) : request :=
  get_request session url_check_eligibility
    [("address", address (account self))] (proxy self).

Definition registration_query (self : HyperLaneRegistration) : request :=
  get_request session url_get_registration
    [("address", address (account self))] (proxy self).

Definition submission (self : HyperLaneRegistration) (signature : string)
    (amount : json) : request :=
  post_request session url_save_registration
    (wallets_body self signature amount) (proxy self).

Definition line (self : HyperLaneRegistration) (lvl : level) (tail : list piece) : event :=
  ELog lvl (who self ++ tail).

(** The effects of an attempt that gets through the submission. *)
Definition submitting_trace (self : HyperLaneRegistration) (amount : json)
    (signature_bytes : list byte) (success : json) : list event :=
  [EHttp (eligibility_query self);
   EHttp (registration_query self);
   line self INFO [Lit " eligible | "; FVal amount; Lit " HYPER | not registered"];
   ESign (typed_message self amount) (private_key self);
   EHttp (submission self (hex signature_bytes) amount);
   if truthy success
   then line self SUCCESS [Lit " success registered"]
   else line self INFO [Lit " not registered"]].

Definition is_success_line (e : event) : bool :=
  match e with ELog SUCCESS _ => true | _ => false end.

(** The field [name] of the first claim in the body of a submission. *)
Definition claim_field (r : request) (name : string) : option json :=
  match req_json r with
  | Some body =>
      match getitem body "wallets" with
      | Ok wallets =>
          match getitem0 wallets with
          | Ok claim =>
              match getitem claim name with
              | Ok v => Some v
              | Raised _ => None
              end
          | Raised _ => None
          end
      | Raised _ => None
      end
  | None => None
  end.

(** [v[a][b]] *)
Definition getitem2 (v : json) (a b : string) : result json :=
  match getitem v a with
  | Ok x => getitem x b
  | Raised e => Raised e
  end.

(** [P] holds of every effect the coroutine can perform, whatever the
    answers. *)
Fixpoint every {A : Type} (P : event -> Prop) (p : prog A) : Prop :=
  match p with
  | Vis e k => P e /\ forall x, every P (k x)
  | _ => True
  end.

(** The effects of a worker whose proxy is [px]: requests through [px],
    signing, logging and sleeping, and nothing on the semaphore. *)
Definition worker_event (px : option string) (e : event) : Prop :=
  match e with
  | EHttp r => req_proxy r = px
  | EAcquire | ERelease => False
  | _ => True
  end.

(** What [__init__] makes of the proxy of the spreadsheet. *)
Definition normalized (px : option string) : option string :=
  match px with
  | Some p => Some ("http://" ++ p)%string
  | None => None
  end.

Definition is_lower_hex (c : ascii) : bool :=
  let n := N_of_ascii c in
  ((48 <=? n) && (n <=? 57) || (97 <=? n) && (n <=? 102))%N.

Fixpoint string_forall (f : ascii -> bool) (s : string) : bool :=
  match s with
  | EmptyString => true
  | String c rest => f c && string_forall f rest
  end.

Definition is_sign (e : event) : bool :=
  match e with ESign _ _ => true | _ => false end.

Definition is_post (e : event) : bool :=
  match e with
  | EHttp r => match req_method r with POST => true | GET => false end
  | _ => false
  end.

Definition is_get_of (url : string) (e : event) : bool :=
  match e with
  | EHttp r => match req_method r with GET => String.eqb (req_url r) url | POST => false end
  | _ => false
  end.

Definition times (f : event -> bool) (t : list event) : nat := length (filter f t).

(** The lines the wrapper logs for a failure of [func]. *)
Definition failure_line (error_msg : string) (e : exn) : event :=
  ELog ERROR [Lit error_msg; Lit ": "; Lit (exn_str e)].

(** ** Tasks under the event loop *)

Section Scheduler.

Variable W : Type.
Variable http : W -> request -> W * result ClientResponse.
Variable SignableMessage : Type.
Variable encode_typed_data : json -> result SignableMessage.
Variable sign_message : SignableMessage -> string -> result (list byte).

(** A task is between two awaits, waits for the answer to a request it
    has sent, or is done. *)
Inductive tstate : Type :=
| Running (p : prog unit)
| Awaiting (r : request) (k : result ClientResponse -> prog unit)
| Finished (r : result unit).

(** [holds] records whether the task is inside [async with semaphore]. *)
Record task : Type := { holds : bool; at_ : tstate }.

Record pool : Type := { service : W; value : nat; tasks_ : list task }.

(** One move of one task; [None] when the task cannot move: it is done,
    or it waits for the semaphore. *)
Definition task_step (w : W) (n : nat) (t : task) : option (W * nat * task) :=
  match at_ t with
  | Finished _ => None
  | Awaiting r k =>
      let (w', x) := http w r in
      Some (w', n, {| holds := holds t; at_ := Running (k x) |})
  | Running (Ret a) => Some (w, n, {| holds := holds t; at_ := Finished (Ok a) |})
  | Running (Raise e) => Some (w, n, {| holds := holds t; at_ := Finished (Raised e) |})
  | Running (Vis e k) =>
      match e as e0 return (resp e0 -> prog unit) -> option (W * nat * task) with
      | EHttp r => fun k => Some (w, n, {| holds := holds t; at_ := Awaiting r k |})
      | ESign m key => fun k =>
          Some (w, n, {| holds := holds t;
                         at_ := Running (k (sign encode_typed_data sign_message m key)) |})
      | ELog _ _ => fun k => Some (w, n, {| holds := holds t; at_ := Running (k tt) |})
      | ESleep _ => fun k => Some (w, n, {| holds := holds t; at_ := Running (k tt) |})
      | EAcquire => fun k =>
          match n with
          | O => None
          | S n' => Some (w, n', {| holds := true; at_ := Running (k tt) |})
          end
      | ERelease => fun k =>
          Some (w, S n, {| holds := false; at_ := Running (k tt) |})
      end k
  end.

(** The event loop moves any task that can move.  These are the moves
    while [main] awaits [gather]; an exception of [Exception] is all a
    task can end with here. *)
Inductive step : pool -> pool -> Prop :=
| step_task (w : W) (n : nat) (before : list task) (t : task) (rest : list task)
    (w' : W) (n' : nat) (t' : task) :
    task_step w n t = Some (w', n', t') ->
    step {| service := w; value := n; tasks_ := before ++ t :: rest |}
         {| service := w'; value := n'; tasks_ := before ++ t' :: rest |}.

Inductive reachable (s0 : pool) : pool -> Prop :=
| reach_start : reachable s0 s0
| reach_step (s s' : pool) : reachable s0 s -> step s s' -> reachable s0 s'.

Definition spawn (p : prog unit) : task := {| holds := false; at_ := Running p |}.

(** [main] with [asyncio.Semaphore(bound)]: one task per account, none
    started yet. *)
Definition start (from_key : string -> result LocalAccount) (bound : nat)
    (accounts : list (string * option string)) (w : W) : pool :=
  {| service := w; value := bound; tasks_ := map spawn (tasks from_key accounts) |}.

Definition b2n (b : bool) : nat := if b then 1%nat else 0%nat.

Definition holders (ts : list task) : nat :=
  fold_right (fun t acc => (b2n (holds t) + acc)%nat) 0%nat ts.

Definition awaiting (t : task) : bool :=
  match at_ t with Awaiting _ _ => true | _ => false end.

Definition in_flight (ts : list task) : nat :=
  fold_right (fun t acc => (b2n (awaiting t) + acc)%nat) 0%nat ts.

Definition finished (t : task) : bool :=
  match at_ t with Finished _ => true | _ => false end.

(** Inside [async with semaphore] or outside of it: what a coroutine
    may do next, and where it is afterwards. *)
Definition allowed (held : bool) (e : event) : Prop :=
  match e with
  | EAcquire => held = false
  | ERelease => held = true
  | EHttp _ => held = true
  | _ => True
  end.

Definition held_after (held : bool) (e : event) : bool :=
  match e with
  | EAcquire => true
  | ERelease => false
  | _ => held
  end.

(** The coroutine takes the semaphore before it sends a request, never
    takes it twice, and has given it back when it returns or raises. *)
Fixpoint scoped {A : Type} (held : bool) (p : prog A) : Prop :=
  match p with
  | Vis e k => allowed held e /\ forall x, scoped (held_after held e) (k x)
  | _ => held = false
  end.

Definition task_ok (t : task) : Prop :=
  match at_ t with
  | Running p => scoped (holds t) p
  | Awaiting _ k => holds t = true /\ forall x, scoped true (k x)
  | Finished _ => holds t = false
  end.

Definition pool_ok (bound : nat) (s : pool) : Prop :=
  Forall task_ok (tasks_ s) /\ (value s + holders (tasks_ s) = bound)%nat.

End Scheduler.

(** ** A scripted service, for running the code on concrete inputs *)

Module Demo.

(** The service answers from a list, one entry per request, and refuses
    the connection once the list is used up. *)
Definition W : Type := list (result ClientResponse).

Definition http (w : W) (r : request) : W * result ClientResponse :=
  match w with
  | x :: rest => (rest, x)
  | [] => ([], Raised (Exn "ClientConnectorError" "Cannot connect to host"))
  end.

Definition body (v : json) : result ClientResponse :=
  Ok {| response_json_ := Ok v |}.

(** A key is well formed when it has 64 characters. *)
Definition from_key (k : string) : result LocalAccount :=
  if Nat.eqb (String.length k) 64
  then Ok {| address := ("0x" ++ substring 0 40 k)%string |}
  else Raised (Exn "ValueError" "The private key must be exactly 32 bytes long").

(** Typed data whose [amount] is not a string cannot be encoded. *)
Definition encode_typed_data (m : json) : result json :=
  match getitem m "message" with
  | Ok msg =>
      match getitem msg "amount" with
      | Ok (JStr _) => Ok m
      | _ => Raised (TypeError "Value must be a string")
      end
  | Raised e => Raised e
  end.

Definition sign_message (m : json) (k : string) : result (list byte) :=
  Ok [xab; x01; xfe].

Definition run {A : Type} (p : prog A) (w : W) (n : nat) :=
  run http encode_typed_data sign_message p {| world := w; sem := n |}.

Definition key1 : string :=
  "1111111111111111111111111111111111111111111111111111111111111111".

Definition acc1 : HyperLaneRegistration :=
  {| private_key := key1;
     account := {| address := "0x1111111111111111111111111111111111111111" |};
     proxy := None;
     id := 1 |}.

Definition eligible (amount : json) : json :=
  JObj [("response", JObj [("isEligible", JBool true);
                           ("eligibilities", JArr [JObj [("amount", amount)]])])].

Definition not_eligible : json :=
  JObj [("response", JObj [("isEligible", JBool false); ("eligibilities", JArr [])])].

Definition registration (message : string) : json :=
  JObj [("message", JStr message)].

Definition validation (success : bool) : json :=
  JObj [("validationResult", JObj [("success", JBool success)])].

Definition disconnected : result ClientResponse :=
  Raised (Exn "ServerDisconnectedError" "Server disconnected").

(** The service finds the account eligible and not registered, and drops
    the connection at each submission. *)
Definition attempt_dropped : W :=
  [body (eligible (JStr "100")); body (registration "Not found"); disconnected].

Definition dropping : W := attempt_dropped ++ attempt_dropped ++ attempt_dropped.

(** The service accepts the claim. *)
Definition accepting : W :=
  [body (eligible (JStr "100")); body (registration "Not found");
   body (validation true)].

Definition at_start (w : W) : state W := {| world := w; sem := 1 |}.

Definition account2 : HyperLaneRegistration :=
  {| private_key := key1;
     account := {| address := "0x1111111111111111111111111111111111111111" |};
     proxy := Some "http://10.0.0.7:3128";
     id := 2 |}.

End Demo.


(** ** One attempt, and what the orchestrator logs *)

Definition is_error_line (e : event) : bool :=
  match e with ELog ERROR _ => true | _ => false end.

Definition is_sleep (e : event) : bool :=
  match e with ESleep _ => true | _ => false end.

Definition is_acquire (e : event) : bool :=
  match e with EAcquire => true | _ => false end.

Definition is_release (e : event) : bool :=
  match e with ERelease => true | _ => false end.

(** The line the [except] of [start_work] logs. *)
Definition is_task_failure (e : event) : bool :=
  match e with
  | ELog ERROR (Lit s :: _) => String.eqb s "ID account:"
  | _ => false
  end.

(** The line the script logs after [asyncio.run(main())]. *)
Definition is_banner (e : event) : bool :=
  match e with
  | ELog SUCCESS (Lit s :: _) => String.eqb s "The work completed"
  | _ => false
  end.

Section Attempt.

Variable SignableMessage : Type.
Variable encode_typed_data : json -> result SignableMessage.
Variable sign_message : SignableMessage -> string -> result (list byte).

(** The effects of one call of the body of [check_eligible] and how it
    ends, by how far the call gets. *)
Inductive attempt (self : HyperLaneRegistration) : list event -> result unit -> Prop :=
| attempt_query (e : exn) :
    attempt self [EHttp (eligibility_query self)] (Raised e)
| attempt_not_eligible :
    attempt self
      [EHttp (eligibility_query self); line self INFO [Lit " not eligible"]]
      (Ok tt)
| attempt_registration (e : exn) :
    attempt self
      [EHttp (eligibility_query self); EHttp (registration_query self)]
      (Raised e)
| attempt_registered (amount : json) :
    attempt self
      [EHttp (eligibility_query self); EHttp (registration_query self);
       line self INFO [Lit " eligible | "; FVal amount;
                       Lit " HYPER | already registered"]]
      (Ok tt)
| attempt_signing (amount : json) (e : exn) :
    sign encode_typed_data sign_message (typed_message self amount) (private_key self)
    = Raised e ->
    attempt self
      [EHttp (eligibility_query self); EHttp (registration_query self);
       line self INFO [Lit " eligible | "; FVal amount; Lit " HYPER | not registered"];
       ESign (typed_message self amount) (private_key self)]
      (Raised e)
| attempt_submission (amount : json) (signature_bytes : list byte) (e : exn) :
    sign encode_typed_data sign_message (typed_message self amount) (private_key self)
    = Ok signature_bytes ->
    attempt self
      [EHttp (eligibility_query self); EHttp (registration_query self);
       line self INFO [Lit " eligible | "; FVal amount; Lit " HYPER | not registered"];
       ESign (typed_message self amount) (private_key self);
       EHttp (submission self (hex signature_bytes) amount)]
      (Raised e)
| attempt_submitted (amount : json) (signature_bytes : list byte) (success : json) :
    sign encode_typed_data sign_message (typed_message self amount) (private_key self)
    = Ok signature_bytes ->
    attempt self (submitting_trace self amount signature_bytes success) (Ok tt).

(** The submission [e] carries what the signer made of the typed data of
    the account for the amount submitted. *)
Definition signed_submission (self : HyperLaneRegistration) (e : event) : Prop :=
  exists (amount : json) (signature_bytes : list byte),
    sign encode_typed_data sign_message (typed_message self amount) (private_key self)
    = Ok signature_bytes
    /\ e = EHttp (submission self (hex signature_bytes) amount).

End Attempt.

(** The runs of a coroutine wrapped for three attempts: the attempts that
    raised, each followed by its failure line, with a sleep of 2 between two
    attempts, and the attempt that returned, if one did. *)
Inductive three_attempts {A : Type} (error_msg : string)
    (one : list event -> result A -> Prop) : list event -> wrapped A -> Prop :=
| first_returns (t1 : list event) (a : A) :
    one t1 (Ok a) ->
    three_attempts error_msg one t1 (Returned a)
| second_returns (t1 t2 : list event) (e1 : exn) (a : A) :
    one t1 (Raised e1) -> one t2 (Ok a) ->
    three_attempts error_msg one
      (t1 ++ [failure_line error_msg e1; ESleep 2] ++ t2) (Returned a)
| third_returns (t1 t2 t3 : list event) (e1 e2 : exn) (a : A) :
    one t1 (Raised e1) -> one t2 (Raised e2) -> one t3 (Ok a) ->
    three_attempts error_msg one
      (t1 ++ [failure_line error_msg e1; ESleep 2] ++
       t2 ++ [failure_line error_msg e2; ESleep 2] ++ t3) (Returned a)
| none_returns (t1 t2 t3 : list event) (e1 e2 e3 : exn) :
    one t1 (Raised e1) -> one t2 (Raised e2) -> one t3 (Raised e3) ->
    three_attempts error_msg one
      (t1 ++ [failure_line error_msg e1; ESleep 2] ++
       t2 ++ [failure_line error_msg e2; ESleep 2] ++
       t3 ++ [failure_line error_msg e3]) Zero.

(** What only the orchestrator does: taking and giving back the semaphore,
    the line of the [except] of [start_work], the line after the batch. *)
Definition orchestrator_event (e : event) : bool :=
  is_task_failure e || is_banner e || is_acquire e || is_release e.

(** The account [__init__] builds once [from_key] has accepted the key. *)
Definition built (key : string) (acct : LocalAccount) (px : option string)
    (number_acc : Z) : HyperLaneRegistration :=
  {| private_key := key; account := acct; proxy := normalized px; id := number_acc |}.

(** The key of the account is one [from_key] accepts. *)
Definition well_formed (from_key : string -> result LocalAccount)
    (account : string * option string) : Prop :=
  exists acct, from_key (fst account) = Ok acct.

(** All that [check_eligible] can do for the account [self]: one of its
    three requests, the signing of its typed data with its key, a line
    that starts with its number and address, the failure line of the
    wrapper, a sleep of 2. *)
Definition worker_alphabet (self : HyperLaneRegistration) (e : event) : Prop :=
  match e with
  | EHttp r =>
      r = eligibility_query self \/ r = registration_query self
      \/ exists signature amount, r = submission self signature amount
  | ESign m key =>
      key = private_key self /\ exists amount, m = typed_message self amount
  | ELog ERROR msg => exists e', ELog ERROR msg = failure_line "check_eligible" e'
  | ELog _ msg => exists tail, msg = who self ++ tail
  | ESleep seconds => seconds = 2
  | EAcquire | ERelease => False
  end.




(** ** Facts about single runs *)

Section RunFacts.

Variable W : Type.
Variable http : W -> request -> W * result ClientResponse.
Variable SignableMessage : Type.
Variable encode_typed_data : json -> result SignableMessage.
Variable sign_message : SignableMessage -> string -> result (list byte).

Local Abbreviation exec := (run http encode_typed_data sign_message).

Local Abbreviation prefixed := (@prefixed W _).

Lemma after_prefixed {A : Type} (e : event) (t : list event) (o : option (outcome W A)) :
  after e (prefixed t o) = prefixed (e :: t) o.
Proof. destruct o as [[[t' st] r]|]; reflexivity. Qed.

Lemma prefixed_nil {A : Type} (o : option (outcome W A)) : prefixed [] o = o.
Proof. destruct o as [[[t' st] r]|]; reflexivity. Qed.

Lemma prefixed_app {A : Type} (t1 t2 : list event) (o : option (outcome W A)) :
  prefixed t1 (prefixed t2 o) = prefixed (t1 ++ t2) o.
Proof. destruct o as [[[t' st] r]|]; simpl; [rewrite app_assoc|]; reflexivity. Qed.

Lemma run_bind {A B : Type} (p : prog A) (f : A -> prog B) (st : state W) :
  exec (bind p f) st =
    match exec p st with
    | Some (t, st', Ok a) => prefixed t (exec (f a) st')
    | Some (t, st', Raised e) => Some (t, st', Raised e)
    | None => None
    end.
Proof.
  revert st; induction p as [a|e|e k IH]; intros st; simpl.
  - now rewrite prefixed_nil.
  - reflexivity.
  - destruct (handle http encode_typed_data sign_message st e) as [[st' x]|]; [|reflexivity].
    rewrite IH.
    destruct (exec (k x) st') as [[[t st''] [a|e']]|]; simpl; try reflexivity.
    apply after_prefixed.
Qed.

Lemma run_try_except {A : Type} (p : prog A) (h : exn -> prog A) (st : state W) :
  exec (try_except p h) st =
    match exec p st with
    | Some (t, st', Ok a) => Some (t, st', Ok a)
    | Some (t, st', Raised e) => prefixed t (exec (h e) st')
    | None => None
    end.
Proof.
  revert st; induction p as [a|e|e k IH]; intros st; simpl.
  - reflexivity.
  - now rewrite prefixed_nil.
  - destruct (handle http encode_typed_data sign_message st e) as [[st' x]|]; [|reflexivity].
    rewrite IH.
    destruct (exec (k x) st') as [[[t st''] [a|e']]|]; simpl; try reflexivity.
    apply after_prefixed.
Qed.

(** One turn of the loop of [wrapper]. *)
Lemma run_wrapper_loop {A : Type} (error_msg : string) (retries : Z)
    (func : prog A) (i : Z) (rest : list Z) (st : state W) :
  exec (wrapper_loop error_msg retries func (i :: rest)) st =
    match exec func st with
    | Some (t, st', Ok a) => Some (t, st', Ok (Returned a))
    | Some (t, st', Raised e) =>
        if i =? retries - 1
        then Some (t ++ [failure_line error_msg e], st', Ok Zero)
        else prefixed (t ++ [failure_line error_msg e; ESleep 2])
               (exec (wrapper_loop error_msg retries func rest) st')
    | None => None
    end.
Proof.
  cbn [wrapper_loop]. rewrite run_try_except, run_bind.
  destruct (exec func st) as [[[t st'] [a|e]]|]; simpl; try reflexivity.
  - now rewrite app_nil_r.
  - destruct (i =? retries - 1); simpl; [reflexivity|].
    destruct (exec (wrapper_loop error_msg retries func rest) st') as [[[t' s'] r]|];
      simpl; [|reflexivity].
    now rewrite <- app_assoc.
Qed.

Lemma wrapper_loop_never_raises {A : Type} (error_msg : string) (retries : Z)
    (func : prog A) (indices : list Z) :
  forall st t st' e,
    exec (wrapper_loop error_msg retries func indices) st <> Some (t, st', Raised e).
Proof.
  induction indices as [|i rest IH]; intros st t st' e.
  - simpl. discriminate.
  - rewrite run_wrapper_loop.
    destruct (exec func st) as [[[t1 st1] [a|e1]]|]; try discriminate.
    destruct (i =? retries - 1); [discriminate|].
    specialize (IH st1).
    destruct (exec (wrapper_loop error_msg retries func rest) st1) as [[[t2 st2] [v|e2]]|];
      simpl; try discriminate.
    exfalso. now apply (IH t2 st2 e2).
Qed.

Lemma wrapper_loop_returns {A : Type} (error_msg : string) (retries : Z)
    (func : prog A) (indices : list Z) :
  (forall st, exec func st <> None) ->
  forall st, exists t st' v,
    exec (wrapper_loop error_msg retries func indices) st = Some (t, st', Ok v).
Proof.
  intros Hfunc. induction indices as [|i rest IH]; intros st.
  - simpl. now eexists _, _, _.
  - rewrite run_wrapper_loop. specialize (Hfunc st).
    destruct (exec func st) as [[[t1 st1] [a|e1]]|]; [| |congruence].
    + now eexists _, _, _.
    + destruct (i =? retries - 1); [now eexists _, _, _|].
      destruct (IH st1) as (t2 & st2 & v & ->). simpl. now eexists _, _, _.
Qed.

(** C2: the wrapper makes up to three attempts.  When the first two raise
    and the third returns, the wrapper returns the value of the third,
    after the two failures were logged, each followed by a sleep of 2.
    When all three raise, it logs the three failures, sleeps twice and
    returns 0.  No exception leaves the wrapper, and it returns whenever
    the attempts of [func] come to an end. *)
Theorem async_error_handler_three_attempts {A : Type} (error_msg : string)
    (func : prog A) (st0 : state W) :
  (forall t1 st1 e1 t2 st2 e2 t3 st3 a,
      exec func st0 = Some (t1, st1, Raised e1) ->
      exec func st1 = Some (t2, st2, Raised e2) ->
      exec func st2 = Some (t3, st3, Ok a) ->
      exec (async_error_handler error_msg 3 func) st0 =
        Some (t1 ++ [failure_line error_msg e1; ESleep 2] ++
              t2 ++ [failure_line error_msg e2; ESleep 2] ++ t3,
              st3, Ok (Returned a)))
  /\ (forall t1 st1 e1 t2 st2 e2 t3 st3 e3,
      exec func st0 = Some (t1, st1, Raised e1) ->
      exec func st1 = Some (t2, st2, Raised e2) ->
      exec func st2 = Some (t3, st3, Raised e3) ->
      exec (async_error_handler error_msg 3 func) st0 =
        Some (t1 ++ [failure_line error_msg e1; ESleep 2] ++
              t2 ++ [failure_line error_msg e2; ESleep 2] ++
              t3 ++ [failure_line error_msg e3],
              st3, Ok Zero))
  /\ (forall t st e,
      exec (async_error_handler error_msg 3 func) st0 <> Some (t, st, Raised e))
  /\ ((forall st, exec func st <> None) ->
      exists t st v,
        exec (async_error_handler error_msg 3 func) st0 = Some (t, st, Ok v)).
Proof.
  unfold async_error_handler.
  change (range0 3) with [0; 1; 2].
  repeat split.
  - intros t1 st1 e1 t2 st2 e2 t3 st3 a H1 H2 H3.
    rewrite run_wrapper_loop, H1. simpl (0 =? 3 - 1).
    rewrite run_wrapper_loop, H2. simpl (1 =? 3 - 1).
    rewrite run_wrapper_loop, H3. simpl.
    now rewrite <- !app_assoc.
  - intros t1 st1 e1 t2 st2 e2 t3 st3 e3 H1 H2 H3.
    rewrite run_wrapper_loop, H1. simpl (0 =? 3 - 1).
    rewrite run_wrapper_loop, H2. simpl (1 =? 3 - 1).
    rewrite run_wrapper_loop, H3. simpl.
    now rewrite <- !app_assoc.
  - intros t st e. apply wrapper_loop_never_raises.
  - intros Hfunc. now apply wrapper_loop_returns.
Qed.

Lemma hex_digit_lower (n : N) : is_lower_hex (hex_digit n) = true.
Proof.
  destruct n as [|p]; [reflexivity|].
  do 4 (try destruct p as [p|p|]; try reflexivity).
Qed.

Lemma hex_lower (bs : list byte) : string_forall is_lower_hex (hex bs) = true.
Proof.
  induction bs as [|b rest IH]; [reflexivity|].
  cbn [hex string_forall]. now rewrite !hex_digit_lower, IH.
Qed.

Lemma hex_length (bs : list byte) : String.length (hex bs) = (2 * length bs)%nat.
Proof.
  induction bs as [|b rest IH]; [reflexivity|].
  cbn [hex String.length length]. rewrite IH. lia.
Qed.

(** *** The three ways through [check_eligible] *)

Lemma run_http {A : Type} (r : request) (k : result ClientResponse -> prog A)
    (st : state W) (w' : W) (x : result ClientResponse) :
  http (world st) r = (w', x) ->
  exec (Vis (EHttp r) k) st = after (EHttp r) (exec (k x) {| world := w'; sem := sem st |}).
Proof. intros H. simpl. now rewrite H. Qed.

Ltac walk H :=
  cbn -[eligibility_query registration_query submission getitem getitem0
        truthy eq_str sign typed_message hex who];
  rewrite H.

Lemma run_first_attempt {A : Type} (error_msg : string) (func : prog A)
    (st st' : state W) (t : list event) (a : A) :
  exec func st = Some (t, st', Ok a) ->
  exec (async_error_handler error_msg 3 func) st = Some (t, st', Ok (Returned a)).
Proof.
  intros H. unfold async_error_handler. change (range0 3) with [0; 1; 2].
  now rewrite run_wrapper_loop, H.
Qed.

Section Paths.

Variable self : HyperLaneRegistration.
Variable st : state W.

Variables (w1 : W) (json1 inner1 flag : json).
Hypothesis eligibility_answer :
  http (world st) (eligibility_query self) = (w1, Ok {| response_json_ := Ok json1 |}).
Hypothesis eligibility_inner : getitem json1 "response" = Ok inner1.
Hypothesis eligibility_flag : getitem inner1 "isEligible" = Ok flag.

Lemma run_not_eligible :
  truthy flag = false ->
  exec (check_eligible_func self) st =
    Some ([EHttp (eligibility_query self); line self INFO [Lit " not eligible"]],
          {| world := w1; sem := sem st |}, Ok tt).
Proof.
  intros Hflag. unfold check_eligible_func, client_get.
  fold (eligibility_query self).
  walk eligibility_answer. walk eligibility_inner. walk eligibility_flag.
  walk Hflag. reflexivity.
Qed.

(** C4: when the eligibility query answers that the account is not
    eligible, [check_eligible] sends that one query, logs the line
    [not eligible] and returns at the first attempt: it asks nothing
    about the registration, submits nothing and does not sign. *)
Theorem not_eligible_stops :
  truthy flag = false ->
  exec (check_eligible self) st =
    Some ([EHttp (eligibility_query self); line self INFO [Lit " not eligible"]],
          {| world := w1; sem := sem st |}, Ok (Returned tt))
  /\ (forall t st' r,
        exec (check_eligible self) st = Some (t, st', r) ->
        times (is_get_of url_get_registration) t = 0%nat
        /\ times is_post t = 0%nat /\ times is_sign t = 0%nat).
Proof.
  intros Hflag.
  assert (Hrun := run_first_attempt "check_eligible" _ _ (run_not_eligible Hflag)).
  fold (check_eligible self) in Hrun. split; [exact Hrun|].
  intros t st' r Ht. rewrite Hrun in Ht.
  injection Ht as <- _ _. now vm_compute.
Qed.

Section Eligible.

Variables (eligibilities first amount : json) (w2 : W) (json2 message : json).
Hypothesis is_eligible : truthy flag = true.
Hypothesis eligibility_list : getitem inner1 "eligibilities" = Ok eligibilities.
Hypothesis eligibility_first : getitem0 eligibilities = Ok first.
Hypothesis eligibility_amount : getitem first "amount" = Ok amount.
Hypothesis registration_answer :
  http w1 (registration_query self) = (w2, Ok {| response_json_ := Ok json2 |}).
Hypothesis registration_message : getitem json2 "message" = Ok message.

Lemma run_already_registered :
  eq_str message "Success" = true ->
  exec (check_eligible_func self) st =
    Some ([EHttp (eligibility_query self); EHttp (registration_query self);
           line self INFO [Lit " eligible | "; FVal amount;
                           Lit " HYPER | already registered"]],
          {| world := w2; sem := sem st |}, Ok tt).
Proof.
  intros Hmsg. unfold check_eligible_func, client_get.
  fold (eligibility_query self). fold (registration_query self).
  walk eligibility_answer. walk eligibility_inner. walk eligibility_flag.
  walk is_eligible. walk eligibility_list.
  walk eligibility_first. walk eligibility_amount. walk registration_answer.
  walk registration_message. walk Hmsg. reflexivity.
Qed.

(** C5: when the account is eligible and the registration query
    answers with the message [Success], [check_eligible] logs the line
    [already registered] and returns at the first attempt, after the
    two queries: it does not sign and submits nothing. *)
Theorem already_registered_stops :
  eq_str message "Success" = true ->
  exec (check_eligible self) st =
    Some ([EHttp (eligibility_query self); EHttp (registration_query self);
           line self INFO [Lit " eligible | "; FVal amount;
                           Lit " HYPER | already registered"]],
          {| world := w2; sem := sem st |}, Ok (Returned tt))
  /\ (forall t st' r,
        exec (check_eligible self) st = Some (t, st', r) ->
        times is_sign t = 0%nat /\ times is_post t = 0%nat).
Proof.
  intros Hmsg.
  assert (Hrun := run_first_attempt "check_eligible" _ _ (run_already_registered Hmsg)).
  fold (check_eligible self) in Hrun. split; [exact Hrun|].
  intros t st' r Ht. rewrite Hrun in Ht.
  injection Ht as <- _ _. now vm_compute.
Qed.

Section Submitting.

Variables (signature_bytes : list byte) (w3 : W)
          (json3 validation success : json).
Hypothesis not_registered : eq_str message "Success" = false.
Hypothesis signed :
  sign encode_typed_data sign_message (typed_message self amount) (private_key self)
  = Ok signature_bytes.
Hypothesis submission_answer :
  http w2 (submission self (hex signature_bytes) amount)
  = (w3, Ok {| response_json_ := Ok json3 |}).
Hypothesis submission_result : getitem json3 "validationResult" = Ok validation.
Hypothesis submission_success : getitem validation "success" = Ok success.

Local Abbreviation the_trace :=
  (submitting_trace self amount signature_bytes success).

Lemma run_submitting :
  exec (check_eligible_func self) st =
    Some (the_trace, {| world := w3; sem := sem st |}, Ok tt).
Proof.
  unfold check_eligible_func, client_get, client_post, create_message.
  fold (eligibility_query self). fold (registration_query self).
  walk eligibility_answer. walk eligibility_inner. walk eligibility_flag.
  walk is_eligible. walk eligibility_list.
  walk eligibility_first. walk eligibility_amount. walk registration_answer.
  walk registration_message. walk not_registered. walk signed.
  cbn -[eligibility_query registration_query getitem getitem0
        truthy eq_str sign typed_message hex who wallets_body].
  fold (submission self (hex signature_bytes) amount).
  rewrite submission_answer.
  walk submission_result. walk submission_success.
  cbn -[eligibility_query registration_query submission truthy typed_message hex who].
  unfold submitting_trace. now destruct (truthy success).
Qed.

Lemma run_submitting_wrapped :
  exec (check_eligible self) st =
    Some (the_trace, {| world := w3; sem := sem st |}, Ok (Returned tt)).
Proof. exact (run_first_attempt "check_eligible" _ _ run_submitting). Qed.

Lemma submitting_posts :
  filter is_post the_trace =
    [EHttp (submission self (hex signature_bytes) amount)].
Proof. unfold submitting_trace. now destruct (truthy success). Qed.

Lemma submitting_signs :
  filter is_sign the_trace =
    [ESign (typed_message self amount) (private_key self)].
Proof. unfold submitting_trace. now destruct (truthy success). Qed.

(** C1, as the code has it: when the account is eligible, the
    registration query does not answer [Success], and neither the
    signing nor the submission raises, [check_eligible] returns at
    the first attempt after exactly one signing and exactly one
    submission, and the claim submitted carries the amount the
    eligibility query gave. *)
Theorem eligible_unregistered_submits_once :
  exec (check_eligible self) st =
    Some (the_trace, {| world := w3; sem := sem st |}, Ok (Returned tt))
  /\ times is_sign the_trace = 1%nat
  /\ times is_post the_trace = 1%nat
  /\ filter is_sign the_trace =
       [ESign (typed_message self amount) (private_key self)]
  /\ filter is_post the_trace =
       [EHttp (submission self (hex signature_bytes) amount)]
  /\ getitem (typed_message self amount) "message"
       = Ok (JObj [("eligibleAddress", JStr (address (account self)));
                   ("chainId", JStr "10");
                   ("amount", amount);
                   ("receivingAddress", JStr (address (account self)));
                   ("tokenType", JStr "HYPER")])
  /\ claim_field (submission self (hex signature_bytes) amount) "amount"
       = Some amount.
Proof.
  split; [exact run_submitting_wrapped|].
  unfold times. rewrite submitting_signs, submitting_posts.
  repeat split; reflexivity.
Qed.

(** C7: the submission is a POST to the save-registration address
    whose body holds, under [wallets], a list of one claim; the
    claim has the number 10 as [chainId], [ethereum] as
    [eligibleAddressType], [HYPER] as [tokenType], and as
    [signature] the characters 0x followed by the signature bytes
    in lower-case hexadecimal, two characters a byte.  A success
    line is logged exactly when the [success] of the
    [validationResult] in the answer is true. *)
Theorem submission_wraps_one_claim :
  exists claim : json,
    exec (check_eligible self) st =
      Some (the_trace, {| world := w3; sem := sem st |}, Ok (Returned tt))
    /\ filter is_post the_trace =
         [EHttp (submission self (hex signature_bytes) amount)]
    /\ req_method (submission self (hex signature_bytes) amount) = POST
    /\ req_url (submission self (hex signature_bytes) amount)
         = url_save_registration
    /\ req_json (submission self (hex signature_bytes) amount)
         = Some (JObj [("wallets", JArr [claim])])
    /\ getitem claim "chainId" = Ok (JNum 10)
    /\ getitem claim "eligibleAddressType" = Ok (JStr "ethereum")
    /\ getitem claim "tokenType" = Ok (JStr "HYPER")
    /\ getitem claim "signature"
         = Ok (JStr ("0x" ++ hex signature_bytes)%string)
    /\ string_forall is_lower_hex (hex signature_bytes) = true
    /\ String.length (hex signature_bytes) = (2 * length signature_bytes)%nat
    /\ existsb is_success_line the_trace = truthy success.
Proof.
  eexists. split; [exact run_submitting_wrapped|].
  split; [exact submitting_posts|].
  do 3 (split; [reflexivity|]).
  do 4 (split; [reflexivity|]).
  split; [apply hex_lower|]. split; [apply hex_length|].
  unfold submitting_trace. now destruct (truthy success).
Qed.

End Submitting.

End Eligible.

End Paths.

(** *** What a worker can do at all *)

Lemma every_bind {A B : Type} (P : event -> Prop) (p : prog A) (f : A -> prog B) :
  every P p -> (forall a, every P (f a)) -> every P (bind p f).
Proof.
  intros Hp Hf. induction p as [a|e|e k IH]; simpl in *; auto.
  destruct Hp as [He Hk]. split; auto.
Qed.

Lemma every_try_except {A : Type} (P : event -> Prop) (p : prog A) (h : exn -> prog A) :
  every P p -> (forall e, every P (h e)) -> every P (try_except p h).
Proof.
  intros Hp Hh. induction p as [a|e|e k IH]; simpl in *; auto.
  destruct Hp as [He Hk]. split; auto.
Qed.

Lemma every_lift {A : Type} (P : event -> Prop) (r : result A) : every P (lift r).
Proof. now destruct r. Qed.

Lemma every_trigger (P : event -> Prop) (e : event) : P e -> every P (trigger e).
Proof. intros He. simpl. auto. Qed.

Lemma every_weaken {A : Type} (P Q : event -> Prop) (p : prog A) :
  (forall e, P e -> Q e) -> every P p -> every Q p.
Proof.
  intros HPQ. induction p as [a|e|e k IH]; simpl; auto.
  intros [He Hk]. split; auto.
Qed.

Ltac shape :=
  repeat first
    [ apply every_bind; [|intros ?]
    | apply every_try_except; [|intros ?]
    | apply every_lift
    | apply every_trigger; exact I
    | apply every_trigger; reflexivity
    | match goal with |- every _ (if ?b then _ else _) => destruct b end
    | exact I ].

Lemma create_message_shape (self : HyperLaneRegistration) (amount : json) :
  every (worker_event (proxy self)) (create_message self amount).
Proof. unfold create_message. shape. Qed.

Lemma check_eligible_func_shape (self : HyperLaneRegistration) :
  every (worker_event (proxy self)) (check_eligible_func self).
Proof.
  unfold check_eligible_func, client_get, client_post, response_json,
    logger_info, logger_success.
  shape.
Qed.

Lemma wrapper_loop_shape {A : Type} (P : event -> Prop) (error_msg : string)
    (retries : Z) (func : prog A) (indices : list Z) :
  (forall lvl msg, P (ELog lvl msg)) -> (forall n, P (ESleep n)) ->
  every P func -> every P (wrapper_loop error_msg retries func indices).
Proof.
  intros Hlog Hsleep Hfunc. induction indices as [|i rest IH]; [exact I|].
  cbn [wrapper_loop]. apply every_try_except.
  - apply every_bind; [assumption|]. intros a. exact I.
  - intros e. apply every_bind; [apply every_trigger, Hlog|]. intros _.
    destruct (i =? retries - 1); [exact I|].
    apply every_bind; [apply every_trigger, Hsleep|]. intros _. exact IH.
Qed.

Lemma check_eligible_shape (self : HyperLaneRegistration) :
  every (worker_event (proxy self)) (check_eligible self).
Proof.
  apply wrapper_loop_shape; try (intros; exact I). apply check_eligible_func_shape.
Qed.

Lemma run_every {A : Type} (P : event -> Prop) (p : prog A) :
  every P p ->
  forall st t st' r, exec p st = Some (t, st', r) -> Forall P t.
Proof.
  induction p as [a|e|e k IH]; simpl; intros Hp st t st' r Hrun.
  - injection Hrun as <- _ _. constructor.
  - injection Hrun as <- _ _. constructor.
  - destruct Hp as [He Hk].
    destruct (handle http encode_typed_data sign_message st e) as [[st1 x]|];
      [|discriminate].
    specialize (IH x (Hk x) st1).
    destruct (exec (k x) st1) as [[[t1 st2] r1]|]; [|discriminate].
    injection Hrun as <- _ _. constructor; [assumption|]. now apply (IH t1 st2 r1).
Qed.

(** A coroutine that leaves the semaphore alone comes to an end. *)
Lemma run_worker {A : Type} (px : option string) (p : prog A) :
  every (worker_event px) p -> forall st, exec p st <> None.
Proof.
  induction p as [a|e|e k IH]; simpl; intros Hp st; try discriminate.
  destruct Hp as [He Hk].
  assert (Hh : exists st1 x, handle http encode_typed_data sign_message st e
                             = Some (st1, x)).
  { destruct e; simpl in *; try contradiction; try (now eexists _, _).
    destruct (http (world st) r) as [w' x]. now eexists _, _. }
  destruct Hh as (st1 & x & ->).
  specialize (IH x (Hk x) st1).
  destruct (exec (k x) st1) as [[[t1 st2] r1]|]; [discriminate|congruence].
Qed.

Section Construction.

Variable from_key : string -> result LocalAccount.
Variables (key : string) (px : option string) (n : Z).
Variable self : HyperLaneRegistration.
Hypothesis constructed : __init__ from_key key px n = Ok self.

Lemma constructed_fields :
  from_key key = Ok (account self)
  /\ private_key self = key /\ proxy self = normalized px /\ id self = n.
Proof.
  unfold __init__ in constructed.
  destruct (from_key key) as [a|e]; [|discriminate].
  injection constructed as <-. now repeat split.
Qed.

(** C6: the typed data that [create_message] hands to the signer, with
    the key of the account, has the domain of name [Hyperlane] and
    version [1], the five fields of [Message] with their types, and a
    message whose [eligibleAddress] and [receivingAddress] are the
    address derived from the key, whose [chainId] is the string [10],
    whose [tokenType] is [HYPER] and whose [amount] is the amount
    given. *)
Theorem create_message_typed_data (amount : json) (st : state W) :
  exists (m : json) (r : result string),
    exec (create_message self amount) st = Some ([ESign m key], st, r)
    /\ from_key key = Ok (account self)
    /\ getitem m "domain"
         = Ok (JObj [("name", JStr "Hyperlane"); ("version", JStr "1")])
    /\ getitem2 m "types" "Message"
         = Ok (JArr [field "eligibleAddress" "string";
                     field "chainId" "uint256";
                     field "amount" "string";
                     field "receivingAddress" "string";
                     field "tokenType" "string"])
    /\ getitem m "primaryType" = Ok (JStr "Message")
    /\ getitem m "message"
         = Ok (JObj [("eligibleAddress", JStr (address (account self)));
                     ("chainId", JStr "10");
                     ("amount", amount);
                     ("receivingAddress", JStr (address (account self)));
                     ("tokenType", JStr "HYPER")]).
Proof.
  destruct constructed_fields as (Hkey & Hpk & _ & _).
  exists (typed_message self amount).
  unfold create_message. cbn -[typed_message sign hex]. rewrite Hpk.
  destruct (sign encode_typed_data sign_message (typed_message self amount) key)
    as [bs|e]; eexists; (split; [reflexivity|]); now repeat split.
Qed.


End Construction.


End RunFacts.

(** ** Facts about the tasks under the event loop *)

Section SchedulerFacts.

Variable W : Type.
Variable http : W -> request -> W * result ClientResponse.
Variable SignableMessage : Type.
Variable encode_typed_data : json -> result SignableMessage.
Variable sign_message : SignableMessage -> string -> result (list byte).
Variable from_key : string -> result LocalAccount.

Local Abbreviation move := (task_step http encode_typed_data sign_message).
Local Abbreviation steps := (step http encode_typed_data sign_message).
Local Abbreviation reaches := (reachable http encode_typed_data sign_message).

Lemma finally_release_scoped {A : Type} (px : option string) (p : prog A) :
  every (worker_event px) p -> scoped true (try_finally p (trigger ERelease)).
Proof.
  induction p as [a|e|e k IH]; simpl; intros Hp.
  - split; [reflexivity|]. intros _. reflexivity.
  - split; [reflexivity|]. intros _. reflexivity.
  - destruct Hp as [He Hk]. split.
    + destruct e; simpl in *; auto; contradiction.
    + intros x. replace (held_after true e) with true
        by (destruct e; simpl in *; auto; contradiction).
      now apply IH.
Qed.

Lemma start_work_body_shape (account : string * option string) (id_acc : Z) :
  every (worker_event (normalized (snd account)))
    (acc <- lift (__init__ from_key (fst account) (snd account) id_acc) ;;
     try_except
       (check_eligible acc ;; Ret tt)
       (fun e => logger_error [Lit "ID account:"; FInt id_acc;
                               Lit " Failed: "; Lit (exn_str e)])).
Proof.
  unfold __init__. destruct (from_key (fst account)) as [a|e]; [|exact I].
  cbn [lift bind]. apply every_try_except.
  - apply every_bind; [|intros; exact I]. apply check_eligible_shape.
  - intros e. apply every_trigger. exact I.
Qed.

Lemma start_work_scoped (account : string * option string) (id_acc : Z) :
  scoped false (start_work from_key account id_acc).
Proof.
  unfold start_work, with_semaphore. cbn [trigger bind].
  split; [reflexivity|]. intros _. cbn [held_after bind].
  eapply finally_release_scoped, start_work_body_shape.
Qed.

Lemma holders_app (l1 l2 : list task) :
  holders (l1 ++ l2) = (holders l1 + holders l2)%nat.
Proof. induction l1 as [|t l1 IH]; simpl; [reflexivity|]. rewrite IH. lia. Qed.

Lemma task_step_ok (w w' : W) (n n' : nat) (t t' : task) :
  task_ok t -> move w n t = Some (w', n', t') ->
  task_ok t' /\ (n' + b2n (holds t') = n + b2n (holds t))%nat.
Proof.
  destruct t as [h [p|r k|r]]; unfold task_ok, task_step; cbn [at_ holds].
  - destruct p as [a|e|e k]; cbn [scoped].
    + intros Hh [= <- <- <-]. cbn [at_ holds]. split; [assumption|reflexivity].
    + intros Hh [= <- <- <-]. cbn [at_ holds]. split; [assumption|reflexivity].
    + intros [He Hk].
      destruct e; cbn [allowed held_after] in *.
      * intros [= <- <- <-]. cbn [at_ holds]. subst h.
        split; [split; [reflexivity|exact Hk]|reflexivity].
      * intros [= <- <- <-]. cbn [at_ holds]. split; [apply Hk|reflexivity].
      * intros [= <- <- <-]. cbn [at_ holds]. split; [apply Hk|reflexivity].
      * intros [= <- <- <-]. cbn [at_ holds]. split; [apply Hk|reflexivity].
      * destruct n as [|m]; [discriminate|].
        intros [= <- <- <-]. cbn [at_ holds]. split; [apply Hk|].
        subst h. simpl. lia.
      * intros [= <- <- <-]. cbn [at_ holds]. split; [apply Hk|].
        subst h. simpl. lia.
  - intros [Hh Hk]. destruct (http w r) as [w1 x].
    intros [= <- <- <-]. cbn [at_ holds]. subst h. split; [apply Hk|reflexivity].
  - discriminate.
Qed.

Lemma step_ok (bound : nat) (s s' : pool W) :
  pool_ok bound s -> steps s s' -> pool_ok bound s'.
Proof.
  intros [Hall Hsum] Hstep. destruct Hstep as [w n before t rest w' n' t' Hmove].
  cbn [tasks_ value] in *.
  apply Forall_app in Hall as [Hbefore Hrest].
  apply Forall_cons_iff in Hrest as [Ht Hrest].
  destruct (task_step_ok w n t Ht Hmove) as [Ht' Hn].
  split; cbn [tasks_ value].
  - apply Forall_app. split; [assumption|]. now constructor.
  - rewrite holders_app in *. cbn [holders fold_right] in *. lia.
Qed.

Lemma start_ok (bound : nat) (accounts : list (string * option string)) (w : W) :
  pool_ok bound (start from_key bound accounts w).
Proof.
  unfold start, pool_ok, tasks. cbn [tasks_ value].
  generalize (enumerate 1 accounts) as l.
  induction l as [|[i a] l [IHall IHsum]]; cbn [map]; split.
  - constructor.
  - simpl. lia.
  - constructor; [|exact IHall]. apply start_work_scoped.
  - cbn [holders fold_right spawn holds b2n]. exact IHsum.
Qed.

Lemma reachable_ok (bound : nat) (accounts : list (string * option string))
    (w : W) (s : pool W) :
  reaches (start from_key bound accounts w) s -> pool_ok bound s.
Proof.
  induction 1 as [|s s' _ IH Hstep]; [apply start_ok|].
  eapply step_ok; eassumption.
Qed.

Lemma in_flight_holders (ts : list task) :
  Forall task_ok ts -> (in_flight ts <= holders ts)%nat.
Proof.
  induction 1 as [|t ts Ht _ IH]; cbn [in_flight holders fold_right]; [lia|].
  fold (in_flight ts). fold (holders ts).
  assert (b2n (awaiting t) <= b2n (holds t))%nat; [|lia].
  unfold task_ok, awaiting in *.
  destruct (at_ t); simpl; try lia. destruct Ht as [-> _]. simpl. lia.
Qed.

(** C9: for the tasks [main] creates over a semaphore of value [bound], in
    every state the event loop can reach, the tasks inside
    [async with semaphore] and the value left in the semaphore add up to
    [bound], so that at most [bound] tasks hold it at once; a task that
    waits for the answer to a request holds it, so that with a bound of 1
    no two requests are ever in flight together; and a task that is done,
    whether it returned or raised, has given it back. *)
Theorem semaphore_bounds_the_workers (bound : nat)
    (accounts : list (string * option string)) (w : W) (s : pool W) :
  reaches (start from_key bound accounts w) s ->
  (value s + holders (tasks_ s) = bound)%nat
  /\ (holders (tasks_ s) <= bound)%nat
  /\ (in_flight (tasks_ s) <= holders (tasks_ s))%nat
  /\ (bound = semaphore_value -> (in_flight (tasks_ s) <= 1)%nat)
  /\ (forall t, In t (tasks_ s) -> awaiting t = true -> holds t = true)
  /\ (forall t, In t (tasks_ s) -> finished t = true -> holds t = false).
Proof.
  intros Hreach. destruct (reachable_ok Hreach) as [Hall Hsum].
  assert (Hfly := in_flight_holders Hall).
  unfold semaphore_value. repeat split; try lia.
  - intros t Hin Hwait. rewrite Forall_forall in Hall. specialize (Hall t Hin).
    unfold task_ok, awaiting in *. destruct (at_ t); try discriminate.
    now destruct Hall.
  - intros t Hin Hdone. rewrite Forall_forall in Hall. specialize (Hall t Hin).
    unfold task_ok, finished in *. destruct (at_ t); try discriminate.
    exact Hall.
Qed.

End SchedulerFacts.

(** ** The code on concrete inputs *)

Lemma async_error_handler_three_attempts_witness :
  Demo.run (async_error_handler "check_eligible" 3 (check_eligible_func Demo.acc1))
    [Demo.disconnected; Demo.disconnected; Demo.body Demo.not_eligible] 1
  = Some ([EHttp (eligibility_query Demo.acc1);
           failure_line "check_eligible" (Exn "ServerDisconnectedError" "Server disconnected");
           ESleep 2;
           EHttp (eligibility_query Demo.acc1);
           failure_line "check_eligible" (Exn "ServerDisconnectedError" "Server disconnected");
           ESleep 2;
           EHttp (eligibility_query Demo.acc1);
           line Demo.acc1 INFO [Lit " not eligible"]],
          Demo.at_start [], Ok (Returned tt)).
Proof.
  exact (proj1 (async_error_handler_three_attempts Demo.http Demo.encode_typed_data
                  Demo.sign_message "check_eligible" (check_eligible_func Demo.acc1)
                  (Demo.at_start [Demo.disconnected; Demo.disconnected;
                                  Demo.body Demo.not_eligible]))
           _ _ _ _ _ _ _ _ _ eq_refl eq_refl eq_refl).
Defined.

Lemma not_eligible_stops_witness :
  Demo.run (check_eligible Demo.acc1) [Demo.body Demo.not_eligible] 1
  = Some ([EHttp (eligibility_query Demo.acc1); line Demo.acc1 INFO [Lit " not eligible"]],
          Demo.at_start [], Ok (Returned tt)).
Proof.
  refine (proj1 (@not_eligible_stops _ Demo.http _ Demo.encode_typed_data Demo.sign_message
                   Demo.acc1 (Demo.at_start [Demo.body Demo.not_eligible])
                   [] Demo.not_eligible _ (JBool false) eq_refl eq_refl eq_refl eq_refl)).
Defined.

Lemma already_registered_stops_witness :
  Demo.run (check_eligible Demo.acc1)
    [Demo.body (Demo.eligible (JStr "100")); Demo.body (Demo.registration "Success")] 1
  = Some ([EHttp (eligibility_query Demo.acc1); EHttp (registration_query Demo.acc1);
           line Demo.acc1 INFO [Lit " eligible | "; FVal (JStr "100");
                                Lit " HYPER | already registered"]],
          Demo.at_start [], Ok (Returned tt)).
Proof.
  refine (proj1 (@already_registered_stops _ Demo.http _ Demo.encode_typed_data
                   Demo.sign_message Demo.acc1
                   (Demo.at_start [Demo.body (Demo.eligible (JStr "100"));
                                   Demo.body (Demo.registration "Success")])
                   _ (Demo.eligible (JStr "100")) _ (JBool true) eq_refl eq_refl eq_refl
                   _ _ (JStr "100") [] (Demo.registration "Success") (JStr "Success")
                   eq_refl eq_refl eq_refl eq_refl eq_refl eq_refl eq_refl)).
Defined.

Lemma eligible_unregistered_submits_once_witness :
  Demo.run (check_eligible Demo.acc1) Demo.accepting 1
  = Some (submitting_trace Demo.acc1 (JStr "100") [xab; x01; xfe] (JBool true),
          Demo.at_start [], Ok (Returned tt))
  /\ times is_sign (submitting_trace Demo.acc1 (JStr "100") [xab; x01; xfe] (JBool true)) = 1%nat
  /\ times is_post (submitting_trace Demo.acc1 (JStr "100") [xab; x01; xfe] (JBool true)) = 1%nat
  /\ claim_field (submission Demo.acc1 (hex [xab; x01; xfe]) (JStr "100")) "amount"
     = Some (JStr "100").
Proof.
  pose proof (@eligible_unregistered_submits_once _ Demo.http _ Demo.encode_typed_data
                Demo.sign_message Demo.acc1 (Demo.at_start Demo.accepting)
                _ (Demo.eligible (JStr "100")) _ (JBool true) eq_refl eq_refl eq_refl
                _ _ (JStr "100") _ (Demo.registration "Not found") (JStr "Not found")
                eq_refl eq_refl eq_refl eq_refl eq_refl eq_refl
                [xab; x01; xfe] [] (Demo.validation true) _ (JBool true)
                eq_refl eq_refl eq_refl eq_refl eq_refl) as H.
  repeat split; apply H.
Defined.

Lemma submission_wraps_one_claim_witness :
  exists claim : json,
    Demo.run (check_eligible Demo.acc1) Demo.accepting 1
    = Some (submitting_trace Demo.acc1 (JStr "100") [xab; x01; xfe] (JBool true),
            Demo.at_start [], Ok (Returned tt))
    /\ req_json (submission Demo.acc1 (hex [xab; x01; xfe]) (JStr "100"))
       = Some (JObj [("wallets", JArr [claim])])
    /\ getitem claim "signature" = Ok (JStr "0xab01fe")
    /\ getitem claim "chainId" = Ok (JNum 10).
Proof.
  destruct (@submission_wraps_one_claim _ Demo.http _ Demo.encode_typed_data
              Demo.sign_message Demo.acc1 (Demo.at_start Demo.accepting)
              _ (Demo.eligible (JStr "100")) _ (JBool true) eq_refl eq_refl eq_refl
              _ _ (JStr "100") _ (Demo.registration "Not found") (JStr "Not found")
              eq_refl eq_refl eq_refl eq_refl eq_refl eq_refl
              [xab; x01; xfe] [] (Demo.validation true) _ (JBool true)
              eq_refl eq_refl eq_refl eq_refl eq_refl)
    as (claim & Hrun & _ & _ & _ & Hbody & Hchain & _ & _ & Hsig & _).
  exists claim. repeat split; assumption.
Defined.

Lemma create_message_typed_data_witness :
  exists (m : json) (r : result string),
    Demo.run (create_message Demo.account2 (JStr "100")) [] 1
    = Some ([ESign m Demo.key1], Demo.at_start [], r)
    /\ getitem2 m "message" "eligibleAddress"
       = Ok (JStr "0x1111111111111111111111111111111111111111")
    /\ getitem2 m "message" "chainId" = Ok (JStr "10").
Proof.
  destruct (@create_message_typed_data _ Demo.http _ Demo.encode_typed_data
              Demo.sign_message Demo.from_key Demo.key1 (Some "10.0.0.7:3128") 2
              Demo.account2 eq_refl (JStr "100") (Demo.at_start []))
    as (m & r & Hrun & _ & _ & _ & _ & Hmsg).
  exists m, r. split; [exact Hrun|].
  unfold getitem2. rewrite Hmsg. split; reflexivity.
Defined.



(** One signing and one submission per attempt, not per account: here the
    account is eligible and not registered at every query, the connection
    drops at each submission, and the three attempts of the wrapper sign
    three times and submit three times before the wrapper returns 0. *)
Lemma retry_signs_and_submits_again :
  Demo.http Demo.dropping (eligibility_query Demo.acc1)
  = (tl Demo.dropping, Demo.body (Demo.eligible (JStr "100")))
  /\ getitem2 (Demo.eligible (JStr "100")) "response" "isEligible" = Ok (JBool true)
  /\ Demo.http (tl Demo.dropping) (registration_query Demo.acc1)
     = (tl (tl Demo.dropping), Demo.body (Demo.registration "Not found"))
  /\ eq_str (JStr "Not found") "Success" = false
  /\ exists t,
       Demo.run (check_eligible Demo.acc1) Demo.dropping 1
       = Some (t, Demo.at_start [], Ok Zero)
       /\ times is_sign t = 3%nat
       /\ times is_post t = 3%nat
       /\ times (is_get_of url_check_eligibility) t = 3%nat
       /\ times is_sign t <> 1%nat
       /\ times is_post t <> 1%nat.
Proof.
  repeat split; try reflexivity.
  eexists. split; [vm_compute; reflexivity|].
  repeat split; try reflexivity; vm_compute; discriminate.
Qed.

(** A key that [from_key] refuses raises in [start_work] before the [try]:
    the exception leaves the task, after the semaphore is given back, and
    nothing is logged for the account. *)
Lemma start_work_leaks_key_error (W : Type)
    (http : W -> request -> W * result ClientResponse) (SignableMessage : Type)
    (encode_typed_data : json -> result SignableMessage)
    (sign_message : SignableMessage -> string -> result (list byte))
    (from_key : string -> result LocalAccount)
    (key : string) (px : option string) (id_acc : Z) (e : exn) (w : W) (n : nat) :
  from_key key = Raised e ->
  run http encode_typed_data sign_message (start_work from_key (key, px) id_acc)
    {| world := w; sem := S n |}
  = Some ([EAcquire; ERelease], {| world := w; sem := S n |}, Raised e).
Proof.
  intros Hkey. unfold start_work, with_semaphore, __init__. cbn. now rewrite Hkey.
Qed.


(** The same batch with the well-formed key alone runs to the end. *)
Lemma well_formed_batch_completes :
  Demo.run (script Demo.from_key [(Demo.key1, None)]) [Demo.body Demo.not_eligible] 1
  = Some ([ELog INFO [Lit "My channel: https://t.me/CryptoMindYep"];
           ELog INFO [Lit "Total wallets: "; FInt 1; Lit newline];
           EAcquire;
           EHttp (eligibility_query Demo.acc1);
           line Demo.acc1 INFO [Lit " not eligible"];
           ERelease;
           ELog SUCCESS [Lit "The work completed"];
           ELog INFO [Lit "Thx for donat: 0x5AfFeb5fcD283816ab4e926F380F9D0CBBA04d0e"]],
          Demo.at_start [], Ok tt).
Proof. vm_compute. reflexivity. Qed.

Lemma semaphore_bounds_the_workers_witness :
  exists s : pool Demo.W,
    reachable Demo.http Demo.encode_typed_data Demo.sign_message
      (start Demo.from_key 1 [(Demo.key1, None); (Demo.key1, None)] Demo.accepting) s
    /\ value s = 0%nat
    /\ holders (tasks_ s) = 1%nat
    /\ (in_flight (tasks_ s) <= 1)%nat.
Proof.
  eexists. split; [|split; [|split]].
  - eapply reach_step; [apply reach_start|].
    refine (step_task Demo.http Demo.encode_typed_data Demo.sign_message
              Demo.accepting 1 []
              (spawn (start_work Demo.from_key (Demo.key1, None) 1))
              [spawn (start_work Demo.from_key (Demo.key1, None) 2)]
              _).
    reflexivity.
  - reflexivity.
  - reflexivity.
  - refine (proj1 (proj2 (proj2 (proj2
      (@semaphore_bounds_the_workers _ Demo.http _ Demo.encode_typed_data
         Demo.sign_message Demo.from_key 1
         [(Demo.key1, None); (Demo.key1, None)] Demo.accepting _ _)))) eq_refl).
    eapply reach_step; [apply reach_start|].
    refine (step_task Demo.http Demo.encode_typed_data Demo.sign_message
              Demo.accepting 1 []
              (spawn (start_work Demo.from_key (Demo.key1, None) 1))
              [spawn (start_work Demo.from_key (Demo.key1, None) 2)]
              _).
    reflexivity.
Defined.


(** ** Every attempt, whatever the service answers *)

Section AttemptFacts.

Variable W : Type.
Variable http : W -> request -> W * result ClientResponse.
Variable SignableMessage : Type.
Variable encode_typed_data : json -> result SignableMessage.
Variable sign_message : SignableMessage -> string -> result (list byte).

Local Abbreviation exec := (run http encode_typed_data sign_message).
Local Abbreviation attempt_of := (attempt encode_typed_data sign_message).

Ltac crunch :=
  cbn -[eligibility_query registration_query submission getitem getitem0
        truthy eq_str sign typed_message hex who line submitting_trace wallets_body].

Ltac branch :=
  match goal with
  | |- context [http ?w ?r] =>
      let x := fresh "x" in
      destruct (http w r) as [? x] eqn:?; destruct x as [[[?|?]]|?]
  | |- context [getitem ?a ?b] => destruct (getitem a b) eqn:?
  | |- context [getitem0 ?a] => destruct (getitem0 a) eqn:?
  | |- context [truthy ?a] => destruct (truthy a) eqn:?
  | |- context [eq_str ?a ?b] => destruct (eq_str a b) eqn:?
  | |- context [sign ?f ?g ?m ?k] => destruct (sign f g m k) eqn:?
  end.

Lemma attempt_shape (self : HyperLaneRegistration) (st st' : state W)
    (t : list event) (r : result unit) :
  exec (check_eligible_func self) st = Some (t, st', r) -> attempt_of self t r.
Proof.
  unfold check_eligible_func, client_get, client_post, create_message, response_json,
    logger_info, logger_success.
  fold (eligibility_query self). fold (registration_query self).
  crunch.
  repeat (branch; crunch).
  all: intros [= <- <- <-].
  all: try (now constructor).
  all: try (now econstructor; eauto).
  all: match goal with
       | Hs : sign _ _ (typed_message _ ?a) _ = Ok ?bs, Ht : truthy ?s = _ |- _ =>
           let H := fresh in
           pose proof (@attempt_submitted _ encode_typed_data sign_message
                         self a bs s Hs) as H;
           unfold submitting_trace in H; rewrite Ht in H; exact H
       end.
Qed.

Lemma times_app (f : event -> bool) (t1 t2 : list event) :
  times f (t1 ++ t2) = (times f t1 + times f t2)%nat.
Proof. unfold times. now rewrite filter_app, length_app. Qed.

Lemma attempt_counts (self : HyperLaneRegistration) (t : list event) (r : result unit) :
  attempt_of self t r ->
  times (is_get_of url_check_eligibility) t = 1%nat
  /\ (times (is_get_of url_get_registration) t <= 1)%nat
  /\ (times is_sign t <= times (is_get_of url_get_registration) t)%nat
  /\ (times is_post t <= times is_sign t)%nat
  /\ times is_error_line t = 0%nat
  /\ times is_sleep t = 0%nat.
Proof.
  intros [ | | | | | |amount bs success _];
    [..|unfold submitting_trace; destruct (truthy success)];
    vm_compute; repeat split; lia.
Qed.

Lemma attempt_submissions (self : HyperLaneRegistration) (t : list event)
    (r : result unit) :
  attempt_of self t r ->
  Forall (fun e => is_post e = true ->
                   signed_submission encode_typed_data sign_message self e) t.
Proof.
  intros [ | | | | |amount bs e Hs|amount bs success Hs];
    [..|unfold submitting_trace; destruct (truthy success)];
    repeat constructor; try discriminate; intros _; now exists amount, bs.
Qed.

Lemma func_ends (self : HyperLaneRegistration) (st : state W) :
  exists t st' r, exec (check_eligible_func self) st = Some (t, st', r).
Proof.
  pose proof (run_worker http encode_typed_data sign_message _ _
                (check_eligible_func_shape self) st) as H.
  destruct (exec (check_eligible_func self) st) as [[[t st'] r]|]; [|congruence].
  now exists t, st', r.
Qed.

(** A worker leaves the semaphore as it found it. *)
Lemma run_worker_sem {A : Type} (px : option string) (p : prog A) :
  every (worker_event px) p ->
  forall st t st' r, exec p st = Some (t, st', r) -> sem st' = sem st.
Proof.
  induction p as [a|e|e k IH]; simpl; intros Hp st t st' r Hrun.
  - now injection Hrun as _ <- _.
  - now injection Hrun as _ <- _.
  - destruct Hp as [He Hk].
    destruct (handle http encode_typed_data sign_message st e) as [[st1 x]|] eqn:Hh;
      [|discriminate].
    specialize (IH x (Hk x) st1).
    destruct (exec (k x) st1) as [[[t1 st2] r1]|]; [|discriminate].
    injection Hrun as _ <- _. rewrite (IH _ _ _ eq_refl).
    destruct e; simpl in *; try contradiction;
      try (now injection Hh as <- _).
    destruct (http (world st) r0) as [w' y]. now injection Hh as <- _.
Qed.

(** X1: one call of the body of [check_eligible] always comes to an end,
    and its effects are in order: the eligibility query alone; that query
    and the line [not eligible]; the two queries; the two queries and the
    line [already registered]; or an initial part, from the signing on, of
    the two queries, the line [not registered], one signing, one submission
    and one final line.  It returns only after a final line, and it leaves
    the semaphore alone. *)
Theorem check_eligible_func_attempt (self : HyperLaneRegistration) (st : state W) :
  exists t st' r,
    exec (check_eligible_func self) st = Some (t, st', r)
    /\ attempt encode_typed_data sign_message self t r
    /\ sem st' = sem st.
Proof.
  destruct (func_ends self st) as (t & st' & r & Hrun).
  exists t, st', r. split; [exact Hrun|]. split.
  - now apply attempt_shape with st st'.
  - exact (run_worker_sem _ _ (check_eligible_func_shape self) _ Hrun).
Qed.

Lemma three_attempts_run {A : Type} (error_msg : string) (func : prog A)
    (one : list event -> result A -> Prop) :
  (forall st t st' r, exec func st = Some (t, st', r) -> one t r) ->
  forall st t st' r,
    exec (async_error_handler error_msg 3 func) st = Some (t, st', r) ->
    exists v, r = Ok v /\ three_attempts error_msg one t v.
Proof.
  intros Hone st t st' r. unfold async_error_handler.
  change (range0 3) with [0; 1; 2].
  rewrite run_wrapper_loop.
  destruct (exec func st) as [[[t1 st1] [a1|e1]]|] eqn:H1; [| |discriminate].
  { intros [= <- _ <-]. eexists; split; [reflexivity|]. constructor. eapply Hone; eassumption. }
  simpl (0 =? 3 - 1). cbv iota. rewrite run_wrapper_loop.
  destruct (exec func st1) as [[[t2 st2] [a2|e2]]|] eqn:H2; [| |discriminate].
  { simpl. intros [= <- _ <-]. eexists; split; [reflexivity|].
    rewrite <- app_assoc. econstructor; eapply Hone; eassumption. }
  simpl (1 =? 3 - 1). cbv iota. rewrite run_wrapper_loop.
  destruct (exec func st2) as [[[t3 st3] [a3|e3]]|] eqn:H3; [| |discriminate].
  { simpl. intros [= <- _ <-]. eexists; split; [reflexivity|].
    rewrite <- !app_assoc. econstructor; eapply Hone; eassumption. }
  simpl. intros [= <- _ <-]. eexists; split; [reflexivity|].
  rewrite <- !app_assoc. econstructor; eapply Hone; eassumption.
Qed.

Lemma check_eligible_ends (self : HyperLaneRegistration) (st : state W) :
  exists t st' v, exec (check_eligible self) st = Some (t, st', Ok v).
Proof.
  apply wrapper_loop_returns. intros st1.
  destruct (func_ends self st1) as (t & st' & r & ->). discriminate.
Qed.

Lemma check_eligible_attempts (self : HyperLaneRegistration) (st st' : state W)
    (t : list event) (r : result (wrapped unit)) :
  exec (check_eligible self) st = Some (t, st', r) ->
  exists v, r = Ok v /\ three_attempts "check_eligible" (attempt_of self) t v.
Proof.
  apply three_attempts_run. intros st1 t1 st1' r1. apply attempt_shape.
Qed.

Ltac count_up :=
  repeat match goal with
         | H : attempt_of _ _ _ |- _ => apply attempt_counts in H
         end;
  unfold times in *; rewrite ?filter_app, ?length_app; cbn; lia.

(** X2: every run of [check_eligible] comes to an end without raising, and
    its attempts can be counted from what it did.  With [k] the number of
    failure lines of the wrapper, [k] is at most 3 and the run slept
    [min k 2] times; it returned [None] after [k + 1] eligibility queries
    with [k] at most 2, or it returned 0 after three failures and three
    eligibility queries. *)
Theorem check_eligible_accounting (self : HyperLaneRegistration) (st : state W) :
  exists t st' v,
    exec (check_eligible self) st = Some (t, st', Ok v)
    /\ (times is_error_line t <= 3)%nat
    /\ times is_sleep t = Nat.min (times is_error_line t) 2
    /\ ((v = Returned tt
         /\ times (is_get_of url_check_eligibility) t = S (times is_error_line t)
         /\ (times is_error_line t <= 2)%nat)
        \/ (v = Zero
            /\ times (is_get_of url_check_eligibility) t = 3%nat
            /\ times is_error_line t = 3%nat)).
Proof.
  destruct (check_eligible_ends self st) as (t & st' & v & Hrun).
  exists t, st', v. split; [exact Hrun|].
  destruct (check_eligible_attempts _ _ Hrun) as (v' & [= <-] & Hthree).
  destruct Hthree as [t1 [] H1|t1 t2 e1 [] H1 H2|t1 t2 t3 e1 e2 [] H1 H2 H3
                     |t1 t2 t3 e1 e2 e3 H1 H2 H3].
  - split; [count_up|]. split; [count_up|]. left. repeat split; count_up.
  - split; [count_up|]. split; [count_up|]. left. repeat split; count_up.
  - split; [count_up|]. split; [count_up|]. left. repeat split; count_up.
  - split; [count_up|]. split; [count_up|]. right. repeat split; count_up.
Qed.

(** X3: in every run of [check_eligible] there are at most as many
    submissions as signings, at most as many signings as registration
    queries, at most as many registration queries as eligibility queries,
    and at most three eligibility queries. *)
Theorem check_eligible_never_out_of_order (self : HyperLaneRegistration)
    (st st' : state W) (t : list event) (r : result (wrapped unit)) :
  exec (check_eligible self) st = Some (t, st', r) ->
  (times is_post t <= times is_sign t)%nat
  /\ (times is_sign t <= times (is_get_of url_get_registration) t)%nat
  /\ (times (is_get_of url_get_registration) t
       <= times (is_get_of url_check_eligibility) t)%nat
  /\ (times (is_get_of url_check_eligibility) t <= 3)%nat.
Proof.
  intros Hrun.
  destruct (check_eligible_attempts _ _ Hrun) as (v & _ & Hthree).
  destruct Hthree; repeat split; count_up.
Qed.

(** X4: in every run of [check_eligible], whatever the service answers,
    each submission carries, after [0x], the hexadecimal form of the bytes
    the signer returned for the typed data of this account and of the
    amount submitted: nothing unsigned is ever submitted. *)
Theorem check_eligible_submits_signed (self : HyperLaneRegistration)
    (st st' : state W) (t : list event) (r : result (wrapped unit)) :
  exec (check_eligible self) st = Some (t, st', r) ->
  Forall (fun e => is_post e = true ->
                   signed_submission encode_typed_data sign_message self e) t.
Proof.
  intros Hrun.
  destruct (check_eligible_attempts _ _ Hrun) as (v & _ & Hthree).
  assert (Hpause : forall e, Forall (fun e => is_post e = true ->
             signed_submission encode_typed_data sign_message self e)
             [failure_line "check_eligible" e; ESleep 2]).
  { intros e. repeat constructor; discriminate. }
  destruct Hthree;
    repeat match goal with
           | H : attempt_of _ _ _ |- _ => apply attempt_submissions in H
           end;
    repeat (apply Forall_app; split); auto.
  repeat constructor; discriminate.
Qed.

End AttemptFacts.

(** ** The wrapper, for any number of retries *)

Section WrapperFacts.

Variable W : Type.
Variable http : W -> request -> W * result ClientResponse.
Variable SignableMessage : Type.
Variable encode_typed_data : json -> result SignableMessage.
Variable sign_message : SignableMessage -> string -> result (list byte).

Local Abbreviation exec := (run http encode_typed_data sign_message).

Lemma range0_nonpositive (n : Z) : n <= 0 -> range0 n = [].
Proof.
  intros Hn. unfold range0. replace (Z.to_nat n) with 0%nat by lia. reflexivity.
Qed.

Lemma range0_positive (n : Z) :
  1 <= n -> range0 n = 0 :: map Z.of_nat (seq 1 (Z.to_nat n - 1)).
Proof.
  intros Hn. unfold range0.
  replace (Z.to_nat n) with (S (Z.to_nat n - 1)) at 1 by lia. reflexivity.
Qed.

(** X5: with [retries] at 0 or below the wrapper never calls [func]: it
    does nothing and returns [None].  With [retries] at 1 or above, an
    attempt that returns at once is passed through: the wrapper does what
    [func] did, logs nothing, does not sleep and returns the value of
    [func]. *)
Theorem async_error_handler_edges {A : Type} (error_msg : string) (retries : Z)
    (func : prog A) (st : state W) :
  (retries <= 0 ->
   exec (async_error_handler error_msg retries func) st = Some ([], st, Ok FellThrough))
  /\ (1 <= retries ->
      forall t st' a,
        exec func st = Some (t, st', Ok a) ->
        exec (async_error_handler error_msg retries func) st
        = Some (t, st', Ok (Returned a))).
Proof.
  unfold async_error_handler. split.
  - intros Hn. now rewrite range0_nonpositive.
  - intros Hn t st' a Hrun. rewrite range0_positive by exact Hn.
    now rewrite run_wrapper_loop, Hrun.
Qed.



End WrapperFacts.


(** ** The orchestrator, one task after the other *)

Section OrchestratorFacts.

Variable W : Type.
Variable http : W -> request -> W * result ClientResponse.
Variable SignableMessage : Type.
Variable encode_typed_data : json -> result SignableMessage.
Variable sign_message : SignableMessage -> string -> result (list byte).
Variable from_key : string -> result LocalAccount.

Local Abbreviation exec := (run http encode_typed_data sign_message).

Lemma check_eligible_func_quiet (self : HyperLaneRegistration) :
  every (fun e => orchestrator_event e = false) (check_eligible_func self).
Proof.
  unfold check_eligible_func, client_get, client_post, response_json,
    create_message, logger_info, logger_success.
  repeat first
    [ apply every_bind; [|intros ?]
    | apply every_lift
    | apply every_trigger; reflexivity
    | match goal with |- every _ (if ?b then _ else _) => destruct b end
    | exact I ].
Qed.

Lemma wrapper_loop_lines {A : Type} (P : event -> Prop) (error_msg : string)
    (retries : Z) (func : prog A) (indices : list Z) :
  (forall e, P (failure_line error_msg e)) -> P (ESleep 2) ->
  every P func -> every P (wrapper_loop error_msg retries func indices).
Proof.
  intros Hlog Hsleep Hfunc. induction indices as [|i rest IH]; [exact I|].
  cbn [wrapper_loop]. apply every_try_except.
  - apply every_bind; [assumption|]. intros a. exact I.
  - intros e. apply every_bind; [apply every_trigger, Hlog|]. intros _.
    destruct (i =? retries - 1); [exact I|].
    apply every_bind; [apply every_trigger, Hsleep|]. intros _. exact IH.
Qed.

Lemma check_eligible_quiet (self : HyperLaneRegistration) :
  every (fun e => orchestrator_event e = false) (check_eligible self).
Proof.
  apply wrapper_loop_lines; try (intros; reflexivity).
  apply check_eligible_func_quiet.
Qed.

Lemma times_none (f : event -> bool) (t : list event) :
  Forall (fun e => f e = false) t -> times f t = 0%nat.
Proof.
  unfold times. induction 1 as [|e t He _ IH]; [reflexivity|].
  cbn [filter]. now rewrite He.
Qed.

Lemma quiet_counts (t : list event) :
  Forall (fun e => orchestrator_event e = false) t ->
  times is_task_failure t = 0%nat /\ times is_banner t = 0%nat
  /\ times is_acquire t = 0%nat /\ times is_release t = 0%nat.
Proof.
  intros H. repeat split; apply times_none; (eapply Forall_impl; [|exact H]);
    intros e; unfold orchestrator_event; intros He;
    repeat (apply orb_false_elim in He as [He ?]); assumption.
Qed.

(** [check_eligible] for a built account: it ends, does not raise, leaves
    the semaphore alone and does nothing of what the orchestrator does. *)
Lemma check_eligible_inside (self : HyperLaneRegistration) (st : state W) :
  exists t w' v,
    exec (check_eligible self) st = Some (t, {| world := w'; sem := sem st |}, Ok v)
    /\ Forall (fun e => orchestrator_event e = false) t.
Proof.
  pose proof (run_worker http encode_typed_data sign_message _ _
                (check_eligible_shape self) st) as Hend.
  destruct (exec (check_eligible self) st) as [[[t [w' n']] [v|e]]|] eqn:Hrun;
    [| |congruence].
  - pose proof (run_worker_sem http encode_typed_data sign_message _ _
                  (check_eligible_shape self) _ Hrun) as Hsem.
    cbn [sem] in Hsem. subst n'. exists t, w', v. split; [reflexivity|].
    exact (run_every http encode_typed_data sign_message _ _
             (check_eligible_quiet self) _ Hrun).
  - exfalso. revert Hrun. apply wrapper_loop_never_raises.
Qed.

Lemma run_try_finally {A : Type} (p : prog A) (fin : prog unit) (st : state W) :
  exec (try_finally p fin) st =
    match exec p st with
    | Some (t, st', r) =>
        match exec fin st' with
        | Some (t2, st2, Ok _) => Some (t ++ t2, st2, r)
        | Some (t2, st2, Raised e) => Some (t ++ t2, st2, Raised e)
        | None => None
        end
    | None => None
    end.
Proof.
  revert st; induction p as [a|e|e k IH]; intros st; cbn [try_finally].
  - rewrite run_bind. cbn [run].
    destruct (exec fin st) as [[[t2 st2] [[]|e2]]|]; simpl; try reflexivity.
    now rewrite app_nil_r.
  - rewrite run_bind. cbn [run].
    destruct (exec fin st) as [[[t2 st2] [[]|e2]]|]; simpl; try reflexivity.
    now rewrite app_nil_r.
  - cbn [run].
    destruct (handle http encode_typed_data sign_message st e) as [[st1 x]|];
      [|reflexivity].
    rewrite IH.
    destruct (exec (k x) st1) as [[[t st'] r]|]; [|reflexivity].
    cbn [after].
    destruct (exec fin st') as [[[t2 st2] [[]|e2]]|]; reflexivity.
Qed.

Lemma start_work_well_formed (key : string) (px : option string) (id_acc : Z)
    (acct : LocalAccount) (w : W) (n : nat) :
  from_key key = Ok acct ->
  exists t w' v,
    exec (check_eligible (built key acct px id_acc)) {| world := w; sem := n |}
    = Some (t, {| world := w'; sem := n |}, Ok v)
    /\ Forall (fun e => orchestrator_event e = false) t
    /\ exec (start_work from_key (key, px) id_acc) {| world := w; sem := S n |}
       = Some (EAcquire :: t ++ [ERelease], {| world := w'; sem := S n |}, Ok tt).
Proof.
  intros Hkey.
  destruct (check_eligible_inside (built key acct px id_acc) {| world := w; sem := n |})
    as (t & w' & v & Hrun & Hquiet).
  cbn [sem] in Hrun. exists t, w', v. split; [exact Hrun|]. split; [exact Hquiet|].
  unfold start_work, with_semaphore, __init__. cbn [fst snd].
  rewrite Hkey. fold (normalized px). fold (built key acct px id_acc).
  cbn [trigger bind run handle sem world after lift].
  rewrite run_try_finally. cbn [lift bind].
  rewrite run_try_except, run_bind, Hrun. cbn -[app].
  now rewrite app_nil_r.
Qed.

(** X7: [start_work], once the semaphore is free, always comes to an end
    and gives the semaphore back: it takes it first, releases it last, once
    each.  It raises exactly when [from_key] refuses the key, with the
    exception of [from_key]; whatever [check_eligible] meets, the line
    [ID account ... Failed] of its [except] is never logged.  When the
    semaphore is taken and nobody releases it, [start_work] does not
    start. *)
Theorem start_work_outcome (key : string) (px : option string) (id_acc : Z)
    (w : W) (n : nat) :
  (exists t w',
      exec (start_work from_key (key, px) id_acc) {| world := w; sem := S n |}
      = Some (t, {| world := w'; sem := S n |},
              match from_key key with
              | Ok _ => Ok tt
              | Raised e => Raised e
              end)
      /\ hd_error t = Some EAcquire
      /\ last t EAcquire = ERelease
      /\ times is_acquire t = 1%nat
      /\ times is_release t = 1%nat
      /\ times is_task_failure t = 0%nat)
  /\ exec (start_work from_key (key, px) id_acc) {| world := w; sem := 0 |} = None.
Proof.
  split; [|reflexivity].
  destruct (from_key key) as [acct|e] eqn:Hkey.
  - destruct (@start_work_well_formed key px id_acc acct w n Hkey)
      as (t & w' & v & _ & Hquiet & Hrun).
    exists (EAcquire :: t ++ [ERelease]), w'. split; [exact Hrun|].
    apply quiet_counts in Hquiet as (Hf & _ & Ha & Hr).
    split; [reflexivity|]. split; [now rewrite app_comm_cons, last_last|].
    change (EAcquire :: t ++ [ERelease]) with ([EAcquire] ++ t ++ [ERelease]).
    rewrite !times_app, Hf, Ha, Hr. now repeat split.
  - exists [EAcquire; ERelease], w. split; [|now repeat split].
    unfold start_work, with_semaphore, __init__. cbn. now rewrite Hkey.
Qed.

Lemma tasks_from (start : Z) (accounts : list (string * option string)) (i : nat) :
  nth_error (map (fun ia => start_work from_key (snd ia) (fst ia))
               (enumerate start accounts)) i
  = option_map (fun account => start_work from_key account (start + Z.of_nat i))
      (nth_error accounts i).
Proof.
  revert start i. induction accounts as [|a rest IH]; intros start i.
  - now destruct i.
  - destruct i as [|i]; cbn [enumerate map nth_error option_map fst snd].
    + now rewrite Z.add_0_r.
    + rewrite IH. destruct (nth_error rest i); [|reflexivity].
      cbn [option_map]. do 2 f_equal. lia.
Qed.

(** X8: [main] makes one task per account, in the order of the accounts,
    and numbers them from 1: the task at position [i], counted from 0, is
    [start_work] for the account at position [i] with the number [i + 1]. *)
Theorem tasks_numbered_from_one (accounts : list (string * option string)) (i : nat) :
  length (tasks from_key accounts) = length accounts
  /\ nth_error (tasks from_key accounts) i
     = option_map (fun account => start_work from_key account (Z.of_nat i + 1))
         (nth_error accounts i).
Proof.
  unfold tasks. split.
  - rewrite length_map. generalize 1. induction accounts as [|a rest IH]; intros z;
      [reflexivity|]. cbn [enumerate length]. now rewrite IH.
  - rewrite tasks_from. now rewrite Z.add_comm.
Qed.

Lemma run_gather_well_formed (accounts : list (string * option string)) :
  Forall (well_formed from_key) accounts ->
  forall (start : Z) (w : W),
  exists t w',
    exec (gather (map (fun ia => start_work from_key (snd ia) (fst ia))
                    (enumerate start accounts))) {| world := w; sem := 1 |}
    = Some (t, {| world := w'; sem := 1 |}, Ok tt)
    /\ times is_acquire t = length accounts
    /\ times is_release t = length accounts
    /\ times is_task_failure t = 0%nat
    /\ times is_banner t = 0%nat.
Proof.
  induction 1 as [|[key px] rest [acct Hkey] _ IH]; intros start w.
  - exists [], w. now repeat split.
  - cbn [fst] in Hkey.
    destruct (@start_work_well_formed key px start acct w 0 Hkey)
      as (t1 & w1 & v & _ & Hquiet & Hrun).
    destruct (IH (start + 1) w1) as (t2 & w2 & Hrest & Ha & Hr & Hf & Hb).
    exists ((EAcquire :: t1 ++ [ERelease]) ++ t2), w2.
    cbn [enumerate map gather fst snd]. rewrite run_bind, Hrun. cbn [prefixed].
    rewrite Hrest. split; [reflexivity|].
    apply quiet_counts in Hquiet as (Hf1 & Hb1 & Ha1 & Hr1).
    change (EAcquire :: t1 ++ [ERelease]) with ([EAcquire] ++ t1 ++ [ERelease]).
    rewrite !times_app, Ha, Hr, Hf, Hb, Hf1, Hb1, Ha1, Hr1. now repeat split.
Qed.


(** X9: when [from_key] accepts the key of every account, the script runs
    to its end whatever the service answers: every account takes the
    semaphore once and gives it back, no [ID account ... Failed] line is
    logged, the line [The work completed] is logged once and the run ends
    on the line [Thx for donat].  This holds for an empty batch too. *)
Theorem script_completes (accounts : list (string * option string)) (w : W) :
  Forall (well_formed from_key) accounts ->
  exists t w',
    exec (script from_key accounts) {| world := w; sem := semaphore_value |}
    = Some (t, {| world := w'; sem := semaphore_value |}, Ok tt)
    /\ times is_acquire t = length accounts
    /\ times is_release t = length accounts
    /\ times is_task_failure t = 0%nat
    /\ times is_banner t = 1%nat
    /\ last t EAcquire
       = ELog INFO [Lit "Thx for donat: 0x5AfFeb5fcD283816ab4e926F380F9D0CBBA04d0e"].
Proof.
  intros Hall.
  destruct (@run_gather_well_formed accounts Hall 1 w) as (t & w' & Hrun & Ha & Hr & Hf & Hb).
  exists ([ELog INFO [Lit "My channel: https://t.me/CryptoMindYep"];
           ELog INFO [Lit "Total wallets: "; FInt (Z.of_nat (length accounts));
                      Lit newline]]
          ++ t ++
          [ELog SUCCESS [Lit "The work completed"];
           ELog INFO [Lit "Thx for donat: 0x5AfFeb5fcD283816ab4e926F380F9D0CBBA04d0e"]]),
    w'.
  split.
  - unfold script, main, tasks, logger_info, logger_success, semaphore_value.
    cbn [trigger bind run handle after].
    rewrite run_bind, Hrun. cbn -[app]. reflexivity.
  - rewrite !times_app, Ha, Hr, Hf, Hb.
    repeat split; try reflexivity; try (cbn; lia).
    rewrite !app_assoc.
    change [ELog SUCCESS [Lit "The work completed"];
            ELog INFO [Lit "Thx for donat: 0x5AfFeb5fcD283816ab4e926F380F9D0CBBA04d0e"]]
      with ([ELog SUCCESS [Lit "The work completed"]] ++
            [ELog INFO [Lit "Thx for donat: 0x5AfFeb5fcD283816ab4e926F380F9D0CBBA04d0e"]]).
    rewrite app_assoc. apply last_last.
Qed.


End OrchestratorFacts.

(** ** An eligible account with nothing to claim *)

Section EdgeFacts.

Variable W : Type.
Variable http : W -> request -> W * result ClientResponse.
Variable SignableMessage : Type.
Variable encode_typed_data : json -> result SignableMessage.
Variable sign_message : SignableMessage -> string -> result (list byte).

Local Abbreviation exec := (run http encode_typed_data sign_message).

Variable self : HyperLaneRegistration.
Variables (json1 inner1 flag : json).
Hypothesis steady_answer :
  forall w, snd (http w (eligibility_query self)) = Ok {| response_json_ := Ok json1 |}.
Hypothesis steady_inner : getitem json1 "response" = Ok inner1.
Hypothesis steady_flag : getitem inner1 "isEligible" = Ok flag.
Hypothesis steady_eligible : truthy flag = true.
Hypothesis nothing_listed : getitem inner1 "eligibilities" = Ok (JArr []).

Lemma run_nothing_listed (st : state W) :
  exec (check_eligible_func self) st
  = Some ([EHttp (eligibility_query self)],
          {| world := fst (http (world st) (eligibility_query self)); sem := sem st |},
          Raised (IndexError "list")).
Proof.
  unfold check_eligible_func, client_get. fold (eligibility_query self).
  cbn -[eligibility_query getitem getitem0 truthy].
  pose proof (steady_answer (world st)) as Hanswer.
  destruct (http (world st) (eligibility_query self)) as [w1 x].
  cbn [snd fst] in *. subst x.
  cbn -[eligibility_query getitem getitem0 truthy]. rewrite steady_inner.
  cbn -[eligibility_query getitem getitem0 truthy]. rewrite steady_flag.
  cbn -[eligibility_query getitem getitem0 truthy]. rewrite steady_eligible.
  rewrite nothing_listed. reflexivity.
Qed.

(** X11: when the service keeps answering that the account is eligible but
    lists no eligibility, reading the first one raises [IndexError] in
    each of the three attempts: [check_eligible] sends the eligibility
    query three times, logs [list index out of range] three times, sleeps
    twice and returns 0, and it never asks for the registration, signs or
    submits. *)
Theorem eligible_with_nothing_listed (st : state W) :
  exists st',
    exec (check_eligible self) st
    = Some ([EHttp (eligibility_query self);
             failure_line "check_eligible" (IndexError "list"); ESleep 2;
             EHttp (eligibility_query self);
             failure_line "check_eligible" (IndexError "list"); ESleep 2;
             EHttp (eligibility_query self);
             failure_line "check_eligible" (IndexError "list")],
            st', Ok Zero)
    /\ exn_str (IndexError "list") = "list index out of range".
Proof.
  eexists. split; [|reflexivity].
  unfold check_eligible, async_error_handler. change (range0 3) with [0; 1; 2].
  rewrite run_wrapper_loop, run_nothing_listed. simpl (0 =? 3 - 1). cbv iota.
  rewrite run_wrapper_loop, run_nothing_listed. simpl (1 =? 3 - 1). cbv iota.
  rewrite run_wrapper_loop, run_nothing_listed. simpl (2 =? 3 - 1). cbv iota.
  cbn [prefixed app]. reflexivity.
Qed.

End EdgeFacts.

(** ** The event loop never gets stuck *)

Section Progress.

Variable W : Type.
Variable http : W -> request -> W * result ClientResponse.
Variable SignableMessage : Type.
Variable encode_typed_data : json -> result SignableMessage.
Variable sign_message : SignableMessage -> string -> result (list byte).
Variable from_key : string -> result LocalAccount.

Local Abbreviation move := (task_step http encode_typed_data sign_message).
Local Abbreviation steps := (step http encode_typed_data sign_message).
Local Abbreviation reaches := (reachable http encode_typed_data sign_message).

Lemma can_move (w : W) (n : nat) (t : task) :
  task_ok t -> finished t = false -> (0 < n)%nat \/ holds t = true ->
  exists w' n' t', move w n t = Some (w', n', t').
Proof.
  destruct t as [h [p|r k|r]]; unfold task_ok, finished, task_step; cbn [at_ holds].
  - intros Hok _ Hfree. destruct p as [a|e|e k]; try (now eexists _, _, _).
    destruct e; try (now eexists _, _, _).
    destruct n as [|m]; [|now eexists _, _, _].
    destruct Hfree as [Hn|Hh]; [lia|].
    cbn [scoped allowed] in Hok. destruct Hok as [Hok _]. congruence.
  - intros _ _ _. destruct (http w r) as [w1 x]. now eexists _, _, _.
  - discriminate.
Qed.

Lemma some_holder (ts : list task) :
  (0 < holders ts)%nat -> exists t, In t ts /\ holds t = true.
Proof.
  induction ts as [|t ts IH]; cbn [holders fold_right]; [lia|].
  fold (holders ts). destruct (holds t) eqn:Hh.
  - intros _. exists t. split; [now left|exact Hh].
  - cbn [b2n]. intros Hpos. destruct (IH Hpos) as (t' & Hin & Hh').
    exists t'. split; [now right|exact Hh'].
Qed.

(** X12: under a semaphore of value 1 or more the tasks of [main] cannot
    block each other: in every state the event loop can reach, as long as
    some task is not done, some task can move. *)
Theorem tasks_never_deadlock (bound : nat) (accounts : list (string * option string))
    (w : W) (s : pool W) :
  (1 <= bound)%nat ->
  reaches (start from_key bound accounts w) s ->
  (exists t, In t (tasks_ s) /\ finished t = false) ->
  exists s', steps s s'.
Proof.
  intros Hbound Hreach (t & Hin & Hopen).
  destruct (reachable_ok Hreach) as [Hall Hsum].
  assert (Hpick : exists t', In t' (tasks_ s) /\ finished t' = false
                             /\ ((0 < value s)%nat \/ holds t' = true)).
  { destruct (value s) as [|v] eqn:Hv.
    - destruct (some_holder (tasks_ s) ltac:(lia)) as (t' & Hin' & Hh').
      exists t'. split; [exact Hin'|]. split; [|now right].
      rewrite Forall_forall in Hall. specialize (Hall t' Hin').
      unfold task_ok, finished in *. destruct (at_ t'); congruence.
    - exists t. split; [exact Hin|]. split; [exact Hopen|left; lia]. }
  destruct Hpick as (t' & Hin' & Hopen' & Hfree).
  rewrite Forall_forall in Hall.
  destruct (@can_move (service s) (value s) t' (Hall t' Hin') Hopen' Hfree)
    as (w' & n' & t'' & Hmove).
  apply in_split in Hin' as (before & rest & Hsplit).
  destruct s as [ws vs ts]. cbn [tasks_ value service] in *. subst ts.
  eexists. econstructor. exact Hmove.
Qed.

End Progress.

(** ** More runs on concrete inputs *)

Lemma check_eligible_never_out_of_order_witness :
  exists t st' r,
    Demo.run (check_eligible Demo.acc1) Demo.dropping 1 = Some (t, st', r)
    /\ (times is_post t <= times is_sign t)%nat
    /\ (times (is_get_of url_check_eligibility) t <= 3)%nat.
Proof.
  eexists _, _, _. split; [reflexivity|].
  split; eapply (@check_eligible_never_out_of_order _ Demo.http _ Demo.encode_typed_data
                   Demo.sign_message Demo.acc1 (Demo.at_start Demo.dropping));
    reflexivity.
Defined.

Lemma check_eligible_submits_signed_witness :
  exists t st' r,
    Demo.run (check_eligible Demo.acc1) Demo.accepting 1 = Some (t, st', r)
    /\ Forall (fun e => is_post e = true ->
                        signed_submission Demo.encode_typed_data Demo.sign_message
                          Demo.acc1 e) t.
Proof.
  eexists _, _, _. split; [reflexivity|].
  eapply (@check_eligible_submits_signed _ Demo.http _ Demo.encode_typed_data
            Demo.sign_message Demo.acc1 (Demo.at_start Demo.accepting)).
  reflexivity.
Defined.

Lemma async_error_handler_edges_witness :
  Demo.run (async_error_handler "check_eligible" 0 (check_eligible_func Demo.acc1))
    Demo.accepting 1
  = Some ([], Demo.at_start Demo.accepting, Ok FellThrough)
  /\ Demo.run (async_error_handler "check_eligible" 1 (check_eligible_func Demo.acc1))
       [Demo.body Demo.not_eligible] 1
     = Some ([EHttp (eligibility_query Demo.acc1);
              line Demo.acc1 INFO [Lit " not eligible"]],
             Demo.at_start [], Ok (Returned tt)).
Proof.
  split.
  - refine (proj1 (@async_error_handler_edges _ Demo.http _ Demo.encode_typed_data
                     Demo.sign_message _ "check_eligible" 0
                     (check_eligible_func Demo.acc1) (Demo.at_start Demo.accepting)) _).
    lia.
  - refine (proj2 (@async_error_handler_edges _ Demo.http _ Demo.encode_typed_data
                     Demo.sign_message _ "check_eligible" 1
                     (check_eligible_func Demo.acc1)
                     (Demo.at_start [Demo.body Demo.not_eligible])) _ _ _ _ eq_refl).
    lia.
Defined.


Lemma script_completes_witness :
  exists t w',
    Demo.run (script Demo.from_key [(Demo.key1, None); (Demo.key1, Some "10.0.0.7:3128")])
      [Demo.body Demo.not_eligible; Demo.body Demo.not_eligible] 1
    = Some (t, Demo.at_start w', Ok tt)
    /\ times is_acquire t = 2%nat
    /\ times is_banner t = 1%nat.
Proof.
  destruct (@script_completes _ Demo.http _ Demo.encode_typed_data Demo.sign_message
              Demo.from_key [(Demo.key1, None); (Demo.key1, Some "10.0.0.7:3128")]
              [Demo.body Demo.not_eligible; Demo.body Demo.not_eligible])
    as (t & w' & Hrun & Ha & _ & _ & Hb & _).
  - repeat constructor; eexists; reflexivity.
  - exists t, w'. repeat split; assumption.
Defined.


Lemma eligible_with_nothing_listed_witness :
  exists st',
    run (fun (w : unit) (_ : request) =>
           (tt, Demo.body (JObj [("response", JObj [("isEligible", JBool true);
                                                    ("eligibilities", JArr [])])])))
      Demo.encode_typed_data Demo.sign_message
      (check_eligible Demo.acc1) {| world := tt; sem := 1 |}
    = Some ([EHttp (eligibility_query Demo.acc1);
             failure_line "check_eligible" (IndexError "list"); ESleep 2;
             EHttp (eligibility_query Demo.acc1);
             failure_line "check_eligible" (IndexError "list"); ESleep 2;
             EHttp (eligibility_query Demo.acc1);
             failure_line "check_eligible" (IndexError "list")],
            st', Ok Zero).
Proof.
  destruct (@eligible_with_nothing_listed unit
              (fun (w : unit) (_ : request) =>
                 (tt, Demo.body (JObj [("response", JObj [("isEligible", JBool true);
                                                          ("eligibilities", JArr [])])])))
              _ Demo.encode_typed_data Demo.sign_message Demo.acc1
              (JObj [("response", JObj [("isEligible", JBool true);
                                        ("eligibilities", JArr [])])])
              (JObj [("isEligible", JBool true); ("eligibilities", JArr [])])
              (JBool true)
              (fun _ => eq_refl) eq_refl eq_refl eq_refl eq_refl
              {| world := tt; sem := 1 |})
    as (st' & Hrun & _).
  exists st'. exact Hrun.
Defined.

Lemma tasks_never_deadlock_witness :
  exists s' : pool Demo.W,
    step Demo.http Demo.encode_typed_data Demo.sign_message
      (start Demo.from_key 1 [(Demo.key1, None); (Demo.key1, None)] Demo.accepting) s'.
Proof.
  apply (@tasks_never_deadlock _ Demo.http _ Demo.encode_typed_data Demo.sign_message
           Demo.from_key 1 [(Demo.key1, None); (Demo.key1, None)] Demo.accepting).
  - lia.
  - apply reach_start.
  - eexists. split; [left; reflexivity|reflexivity].
Defined.


(** ** All that a worker does, and how a task ends *)

Section AlphabetFacts.

Variable W : Type.
Variable http : W -> request -> W * result ClientResponse.
Variable SignableMessage : Type.
Variable encode_typed_data : json -> result SignableMessage.
Variable sign_message : SignableMessage -> string -> result (list byte).

Local Abbreviation exec := (run http encode_typed_data sign_message).

Lemma check_eligible_func_alphabet (self : HyperLaneRegistration) :
  every (worker_alphabet self) (check_eligible_func self).
Proof.
  unfold check_eligible_func, client_get, client_post, response_json,
    create_message, logger_info, logger_success.
  fold (eligibility_query self). fold (registration_query self).
  repeat match goal with
         | |- every _ (bind _ _) => apply every_bind; [|intros ?]
         | |- every _ (lift _) => apply every_lift
         | |- every _ (trigger _) => apply every_trigger; cbn [worker_alphabet]
         | |- every _ (if ?b then _ else _) => destruct b
         | |- every _ (Ret _) => exact I
         end.
  all: try (left; reflexivity).
  all: try (right; left; reflexivity).
  all: try (eexists; reflexivity).
  - split; [reflexivity|]. eexists; reflexivity.
  - right; right. eexists _, _; reflexivity.
Qed.

Lemma check_eligible_alphabet (self : HyperLaneRegistration) :
  every (worker_alphabet self) (check_eligible self).
Proof.
  apply wrapper_loop_lines.
  - intros e. now exists e.
  - reflexivity.
  - apply check_eligible_func_alphabet.
Qed.

(** X13: whatever the service answers, [check_eligible] does nothing but
    this: it sends its eligibility query, its registration query or a
    submission of its own claim; it signs its own typed data with its own
    key; it logs lines that start with its number and its address, or the
    failure line of the wrapper, which names neither; it sleeps for 2; and
    it never touches the semaphore. *)
Theorem check_eligible_does_nothing_else (self : HyperLaneRegistration)
    (st st' : state W) (t : list event) (r : result (wrapped unit)) :
  exec (check_eligible self) st = Some (t, st', r) ->
  Forall (worker_alphabet self) t.
Proof.
  intros Hrun. exact (run_every http encode_typed_data sign_message _ _
                        (check_eligible_alphabet self) _ Hrun).
Qed.

End AlphabetFacts.

Section TaskResults.

Variable W : Type.
Variable http : W -> request -> W * result ClientResponse.
Variable SignableMessage : Type.
Variable encode_typed_data : json -> result SignableMessage.
Variable sign_message : SignableMessage -> string -> result (list byte).
Variable from_key : string -> result LocalAccount.

Local Abbreviation move := (task_step http encode_typed_data sign_message).
Local Abbreviation steps := (step http encode_typed_data sign_message).
Local Abbreviation reaches := (reachable http encode_typed_data sign_message).








End TaskResults.


Lemma check_eligible_does_nothing_else_witness :
  exists t st' r,
    Demo.run (check_eligible Demo.account2) Demo.dropping 1 = Some (t, st', r)
    /\ Forall (worker_alphabet Demo.account2) t.
Proof.
  eexists _, _, _. split; [reflexivity|].
  eapply (@check_eligible_does_nothing_else _ Demo.http _ Demo.encode_typed_data
            Demo.sign_message Demo.account2 (Demo.at_start Demo.dropping)).
  reflexivity.
Defined.
